(** * Verification of the 3d-streaming publisher and receiver

    Shallow embedding of [src/publisher.py] (the paced video track and the
    [/offer] HTTP handler) and of [src/receiver.py] (the stereo frame
    transform [process_3d_frame]).

    The frame duration [1.0 / fps] and the [pts] computation are modelled
    as IEEE binary64 arithmetic (Stdlib's [SpecFloat], rounding to
    nearest even); the other Python floats (clock readings, the pacing
    arithmetic, the frame transform) are modelled by exact rationals [Q].
    [int(x)] on a float is truncation toward zero. *)

From Stdlib Require Import ZArith QArith Qround List String Bool Lia.
From Stdlib Require Import Lqa.
From Stdlib Require SpecFloat.
Import ListNotations.

Open Scope Z_scope.

(** ** Python helpers *)

(** [int(x)] for a (rational) float: truncation toward zero. *)
Definition py_int (q : Q) : Z := Z.quot (Qnum q) (Zpos (Qden q)).

(** Python's built-in [round] on a rational: round half to even. *)
Definition py_round (q : Q) : Z :=
  let f := Qfloor q in
  let r := (q - inject_Z f)%Q in
  if Qlt_le_dec r (1 # 2) then f
  else if Qeq_bool r (1 # 2) then (if Z.even f then f else f + 1)
  else f + 1.

(** Exceptions raised by the code (only the ones it can raise here). *)
Inductive py_error :=
| ValueError (msg : string)
| ZeroDivisionError
| TypeError
| Cv2Error
| BroadcastError
| OverflowError (msg : string).

(** Result of a Python computation that may raise. *)
Inductive result (A : Type) :=
| Ok (a : A)
| Err (e : py_error).
Arguments Ok {A} a.
Arguments Err {A} e.

(** Python true division [a / b] on floats: raises on a zero divisor. *)
Definition py_truediv (a b : Q) : result Q :=
  if Qeq_bool b 0 then Err ZeroDivisionError else Ok (a / b)%Q.

(** ** Python floats: IEEE 754 binary64 (53-bit significand, [emax = 1024])
    as specified by [SpecFloat] *)

Definition float := SpecFloat.spec_float.

(** [x * y] and [x / y] on floats: the exact result rounded to nearest,
    ties to even (infinities and NaN as IEEE 754 has them). *)
Definition fmul (x y : float) : float := SpecFloat.SFmul 53 1024 x y.
Definition fdiv (x y : float) : float := SpecFloat.SFdiv 53 1024 x y.

(** The integer [n] rounded to the nearest double. *)
Definition float_of_Z (n : Z) : float := SpecFloat.binary_normalize 53 1024 n 0 false.

(** The rational [q] rounded once to the nearest double: the quotient of
    its numerator by its denominator, which [SFdiv] computes exactly before
    rounding. On a rational that is a double this is that double. *)
Definition float_of_Q (q : Q) : float :=
  match Qnum q with
  | Z0 => SpecFloat.S754_zero false
  | Zpos n => fdiv (SpecFloat.S754_finite false n 0) (SpecFloat.S754_finite false (Qden q) 0)
  | Zneg n => fdiv (SpecFloat.S754_finite true n 0) (SpecFloat.S754_finite false (Qden q) 0)
  end.

(** The exact value of a finite double. *)
Definition Q_of_finite (s : bool) (m : positive) (e : Z) : Q :=
  let z := if s then Zneg m else Zpos m in
  if 0 <=? e then inject_Z (z * 2 ^ e) else Qmake z (Pos.pow 2 (Z.to_pos (- e))).

(** [float(n)] for a Python [int], as [int * float] converts it: raises
    [OverflowError] when it rounds beyond the largest double. *)
Definition py_float_of_int (n : Z) : result float :=
  match float_of_Z n with
  | SpecFloat.S754_infinity _ => Err (OverflowError "int too large to convert to float")
  | f => Ok f
  end.

(** [int(x)] for a Python [float]: truncation toward zero; raises on an
    infinity or a NaN. *)
Definition py_int_float (x : float) : result Z :=
  match x with
  | SpecFloat.S754_zero _ => Ok 0
  | SpecFloat.S754_infinity _ => Err (OverflowError "cannot convert float infinity to integer")
  | SpecFloat.S754_nan => Err (ValueError "cannot convert float NaN to integer")
  | SpecFloat.S754_finite s m e => Ok (py_int (Q_of_finite s m e))
  end.

(** [x / y] on floats: raises [ZeroDivisionError] on a zero divisor. *)
Definition py_float_div (x y : float) : result float :=
  match y with
  | SpecFloat.S754_zero _ => Err ZeroDivisionError
  | _ => Ok (fdiv x y)
  end.

(** ** Publisher: [SideBySideVideoTrack] *)
Module Publisher.

(** The video file behind [cv2.VideoCapture]: what [isOpened] and the
    [cap.get] properties report, and which frame positions [cap.read]
    can decode. *)
Record asset := mkAsset {
  video_path : string;
  opened : bool;
  prop_fps : Q;
  prop_width : Q;
  prop_height : Q;
  prop_frame_count : Q;
  decodable : Z -> bool
}.

(** The fields [__init__] fixes once. *)
Record track := mkTrack {
  cap : asset;
  fps : Q;
  width : Z;
  height : Z;
  frame_count : Z;
  frame_duration : float
}.

(** Effects on the capture and (ghost) markers, in the order they happen. *)
Inductive event :=
| EvCapSet (i : Z)          (* cap.set(cv2.CAP_PROP_POS_FRAMES, i) *)
| EvCapRead (i : Z) (ok : bool)
| EvLoop.                   (* entering the "Loop video if needed" branch *)

(** [int(target_frame * self.frame_duration * 90000)] in float arithmetic:
    the [int] operand is converted to a double, each product is rounded,
    and [int] truncates. *)
Definition frame_pts (target_frame : Z) (frame_duration : float) : result Z :=
  match py_float_of_int target_frame with
  | Err e => Err e
  | Ok tf => py_int_float (fmul (fmul tf frame_duration) (float_of_Z 90000))
  end.

(** Mutable state: the track's [start_time] and [frame_index], the
    capture's position, the number of [time.time()] calls made so far and
    the log of effects. *)
Record world := mkWorld {
  start_time : option Q;
  frame_index : Z;
  pos : Z;
  tick : nat;
  log : list event
}.

(** A PyAV frame: the frame number decoded, [pts] and [time_base]. *)
Record av_frame := mkFrame {
  content : Z;
  pts : Z;
  time_base : Q
}.

Section Track.

(** Wall clock: the value [time.time()] returns at its n-th call. *)
Variable clock : nat -> Q.

(** State and error monad: Python exceptions keep the mutations done. *)
Definition M (A : Type) := world -> result A * world.

Definition ret {A} (a : A) : M A := fun w => (Ok a, w).
Definition bind {A B} (m : M A) (k : A -> M B) : M B :=
  fun w => match m w with
           | (Ok a, w') => k a w'
           | (Err e, w') => (Err e, w')
           end.
Definition raise {A} (e : py_error) : M A := fun w => (Err e, w).
Definition lift {A} (r : result A) : M A := fun w => (r, w).

Local Notation "x <- m ;; k" := (bind m (fun x => k))
  (at level 61, m at next level, right associativity).
Local Notation "m ;;; k" := (bind m (fun _ => k))
  (at level 61, right associativity).

Definition emit (e : event) (w : world) : world :=
  mkWorld (start_time w) (frame_index w) (pos w) (tick w) (log w ++ [e]).

Definition time_time : M Q :=
  fun w => (Ok (clock (tick w)),
            mkWorld (start_time w) (frame_index w) (pos w) (S (tick w)) (log w)).

Definition get_start : M (option Q) := fun w => (Ok (start_time w), w).

Definition set_start (v : option Q) : M unit :=
  fun w => (Ok tt, mkWorld v (frame_index w) (pos w) (tick w) (log w)).

Definition ghost (e : event) : M unit := fun w => (Ok tt, emit e w).

(** [cap.set(cv2.CAP_PROP_POS_FRAMES, i)] *)
Definition cap_set (i : Z) : M unit :=
  fun w => (Ok tt, emit (EvCapSet i)
                     (mkWorld (start_time w) (frame_index w) i (tick w) (log w))).

(** [cap.read()]: the frame at the current position, which advances. *)
Definition cap_read (t : track) : M (option Z) :=
  fun w => let p := pos w in
           if decodable (cap t) p
           then (Ok (Some p), emit (EvCapRead p true)
                   (mkWorld (start_time w) (frame_index w) (p + 1) (tick w) (log w)))
           else (Ok None, emit (EvCapRead p false) w).

(** [SideBySideVideoTrack.recv] *)
Definition recv (t : track) : M av_frame :=
  st <- get_start ;;
  (match st with
   | None => now <- time_time ;; set_start (Some now)
   | Some _ => ret tt
   end) ;;;
  now <- time_time ;;
  st <- get_start ;;
  match st with
  | None => raise TypeError
  | Some s =>
    let current_time := (now - s)%Q in
    let target_frame := py_int (current_time * fps t)%Q in
    target_frame <- ((if target_frame >=? frame_count t
     then ghost EvLoop ;;;
          cap_set 0 ;;;
          now' <- time_time ;;
          set_start (Some now') ;;;
          ret 0
     else ret target_frame)) ;;
    cap_set target_frame ;;;
    r <- cap_read t ;;
    frame <- ((match r with
     | Some f => ret (Some f)
     | None => cap_set 0 ;;; cap_read t
     end)) ;;
    match frame with
    | None => raise Cv2Error   (* cv2.cvtColor(None, ...) *)
    | Some f =>
      p <- lift (frame_pts target_frame (frame_duration t)) ;;
      ret (mkFrame f p (1 # 90000))
    end
  end.

End Track.

(** [SideBySideVideoTrack.__init__]: the track and the initial state. *)
Definition init (a : asset) : result (track * world) :=
  if negb (opened a)
  then Err (ValueError ("Could not open video file: " ++ video_path a))
  else
    let fps := prop_fps a in
    match py_float_div (float_of_Q 1) (float_of_Q fps) with
    | Err e => Err e
    | Ok fd =>
      Ok (mkTrack a fps (py_int (prop_width a)) (py_int (prop_height a))
                  (py_int (prop_frame_count a)) fd,
          mkWorld None 0 0 0 [])
    end.

End Publisher.

(** ** Publisher: pacing facts *)
Module PublisherFacts.
Import Publisher.

Section Pacing.
Variable clock : nat -> Q.

(** Seconds since [start_time] as [recv] measures them (step 2 of the
    pacing algorithm): on the first call [start_time] is the first clock
    reading and the current time the second one. *)
Definition elapsed (w : world) : Q :=
  match start_time w with
  | None => (clock (S (tick w)) - clock (tick w))%Q
  | Some s => (clock (tick w) - s)%Q
  end.

Definition raw_target (t : track) (w : world) : Z := py_int (elapsed w * fps t).

Definition looped (t : track) (w : world) : bool := raw_target t w >=? frame_count t.

(** The index [recv] seeks to and stamps the frame with. *)
Definition paced_target (t : track) (w : world) : Z :=
  if looped t w then 0 else raw_target t w.

Definition pts_of (t : track) (target : Z) : result Z :=
  frame_pts target (frame_duration t).

(** Complete behaviour of one [recv] call. *)
Lemma recv_cases (t : track) (w w' : world) (r : result av_frame) :
  recv clock t w = (r, w') ->
  let tg := paced_target t w in
  let ok1 := decodable (cap t) tg in
  frame_index w' = frame_index w /\
  start_time w' =
    (if looped t w then Some (clock (pred (tick w')))
     else match start_time w with Some s => Some s | None => Some (clock (tick w)) end) /\
  log w' = log w ++ (if looped t w then [EvLoop; EvCapSet 0] else [])
                 ++ [EvCapSet tg; EvCapRead tg ok1]
                 ++ (if ok1 then [] else [EvCapSet 0; EvCapRead 0 (decodable (cap t) 0)]) /\
  r = (if ok1 then
         match pts_of t tg with Ok p => Ok (mkFrame tg p (1 # 90000)) | Err e => Err e end
       else if decodable (cap t) 0 then
         match pts_of t tg with Ok p => Ok (mkFrame 0 p (1 # 90000)) | Err e => Err e end
       else Err Cv2Error).
Proof.
  destruct w as [st fi p tk lg].
  unfold paced_target, looped, raw_target, elapsed, pts_of; cbn -[frame_pts].
  unfold recv, bind, ret, get_start, set_start, time_time, ghost, cap_set,
    cap_read, emit, raise, lift; cbn -[frame_pts].
  destruct st as [s|]; cbn -[frame_pts];
  destruct (py_int _ >=? frame_count t) eqn:Hl; cbn -[frame_pts];
  repeat match goal with
  | |- context [decodable (cap t) ?i] =>
      let E := fresh "E" in destruct (decodable (cap t) i) eqn:E; cbn -[frame_pts]
  end;
  repeat match goal with
  | |- context [frame_pts ?i ?d] => destruct (frame_pts i d); cbn -[frame_pts]
  end;
  intros H; injection H as <- <-; cbn;
  rewrite <- ?app_assoc; cbn;
  repeat split; try congruence.
Qed.

(** For a positive frame count, comparing [int(x)] or [floor(x)] with it
    gives the same answer. *)
Lemma py_int_threshold (x : Q) (c : Z) :
  0 < c -> (py_int x >=? c) = (Qfloor x >=? c).
Proof.
  intros Hc. destruct x as [n d]; unfold py_int; cbn.
  destruct (Z.le_gt_cases 0 n) as [Hn|Hn].
  - rewrite Z.quot_div_nonneg by lia. reflexivity.
  - assert (Z.quot n (Zpos d) <= 0).
    { replace n with (- (- n)) by lia. rewrite Z.quot_opp_l by lia.
      assert (0 <= Z.quot (- n) (Zpos d)) by (apply Z.quot_pos; lia). lia. }
    assert (n / Zpos d < 0) by (apply Z.div_lt_upper_bound; lia).
    destruct (Z.quot n (Zpos d) >=? c) eqn:E1, (n / Zpos d >=? c) eqn:E2;
      rewrite ?Z.geb_le, ?Z.geb_leb, ?Z.leb_le, ?Z.leb_gt in *; try reflexivity; lia.
Qed.

(** Claim C1: for every asset with frames and every [recv] call (hence
    every sequence of calls), each index the capture is set to and read at
    is below [frame_count], and the loop branch runs exactly on the calls
    where [floor(elapsed * fps) >= frame_count]. *)
Theorem recv_index_below_count_and_loop_iff (t : track) (w w' : world)
    (r : result av_frame) :
  0 < frame_count t ->
  recv clock t w = (r, w') ->
  exists evs, log w' = log w ++ evs /\
    (forall i, In (EvCapSet i) evs -> i < frame_count t) /\
    (forall i ok, In (EvCapRead i ok) evs -> i < frame_count t) /\
    (forall fr, r = Ok fr -> content fr < frame_count t) /\
    (In EvLoop evs <-> frame_count t <= Qfloor (elapsed w * fps t)).
Proof.
  intros Hc Hr. apply recv_cases in Hr as (_ & _ & Hlog & Hres).
  assert (Htg : paced_target t w < frame_count t).
  { unfold paced_target, looped. destruct (raw_target t w >=? frame_count t) eqn:E.
    - lia.
    - rewrite Z.geb_leb, Z.leb_gt in E. lia. }
  assert (Hloop : looped t w = (Qfloor (elapsed w * fps t) >=? frame_count t)).
  { unfold looped, raw_target. apply py_int_threshold; exact Hc. }
  eexists; split; [exact Hlog|].
  destruct (decodable (cap t) (paced_target t w)) eqn:E1,
           (decodable (cap t) 0) eqn:E0, (looped t w) eqn:El,
           (pts_of t (paced_target t w)); cbn [app In];
    subst r; repeat split; intros;
    repeat match goal with
    | H : _ \/ _ |- _ => destruct H
    | H : False |- _ => destruct H
    | H : EvCapSet _ = EvCapSet _ |- _ => injection H as <-
    | H : EvCapRead _ _ = EvCapRead _ _ |- _ => injection H as <- <-
    | H : Ok _ = Ok _ |- _ => injection H as <-
    | H : _ = _ |- _ => discriminate H
    end; cbn [content]; try lia; auto;
    symmetry in Hloop;
    rewrite ?Z.geb_leb, ?Z.leb_le, ?Z.leb_gt in Hloop; lia.
Qed.

(** Claim C2 (as amended): the [pts] of every emitted frame is
    [int(target * frame_duration * 90000)] evaluated in double precision,
    with [frame_duration = 1.0 / fps] rounded to a double: the target is
    converted to a double, each product is rounded to nearest, and [int]
    truncates toward zero rather than rounding; the time base is
    [1/90000]. [target] is the index the pacing selected. *)
Theorem recv_pts_truncated (a : asset) (t : track) (w0 w w' : world)
    (fr : av_frame) :
  init a = Ok (t, w0) ->
  recv clock t w = (Ok fr, w') ->
  (exists tf, py_float_of_int (paced_target t w) = Ok tf /\
     py_int_float (fmul (fmul tf (fdiv (float_of_Q 1) (float_of_Q (fps t)))) (float_of_Z 90000))
       = Ok (pts fr)) /\
  time_base fr = 1 # 90000.
Proof.
  intros Hi Hr.
  assert (Hd : frame_duration t = fdiv (float_of_Q 1) (float_of_Q (fps t))).
  { unfold init, py_float_div in Hi.
    destruct (negb (opened a)); [discriminate|].
    destruct (float_of_Q (prop_fps a)) eqn:E; try discriminate;
      injection Hi as <- _; cbn [frame_duration fps]; rewrite E; reflexivity. }
  apply recv_cases in Hr as (_ & _ & _ & Hres).
  destruct (decodable (cap t) (paced_target t w)), (decodable (cap t) 0);
    destruct (pts_of t (paced_target t w)) eqn:Ep; try discriminate Hres;
    injection Hres as ->; cbn [pts time_base];
    unfold pts_of, frame_pts in Ep; rewrite Hd in Ep;
    (destruct (py_float_of_int (paced_target t w)) as [tf|e]; [|discriminate Ep]);
    (split; [exists tf; split; [reflexivity | exact Ep] | reflexivity]).
Qed.

(** Claim C7 (as amended): [frame_index] is never written by [recv];
    [start_time] is never set back to [None]: a looping call stores the
    clock reading taken in the loop branch and uses target 0; when the read
    at the target fails the capture is set to 0 and read again. *)
Theorem recv_state_after_loop_or_decode_failure (t : track) (w w' : world)
    (r : result av_frame) :
  recv clock t w = (r, w') ->
  frame_index w' = frame_index w /\
  (exists s, start_time w' = Some s) /\
  (looped t w = true ->
     start_time w' = Some (clock (pred (tick w'))) /\ paced_target t w = 0) /\
  (decodable (cap t) (paced_target t w) = false ->
     exists pre, log w' = pre ++ [EvCapSet 0; EvCapRead 0 (decodable (cap t) 0)]).
Proof.
  intros Hr. apply recv_cases in Hr as (Hfi & Hst & Hlog & _).
  split; [exact Hfi|]. split; [|split].
  - rewrite Hst. destruct (looped t w); [eauto|]. destruct (start_time w); eauto.
  - intros Hl. rewrite Hst, Hl. unfold paced_target. rewrite Hl. auto.
  - intros Hd. rewrite Hlog, Hd. rewrite !app_assoc. eexists. reflexivity.
Qed.

(** Claim C10: when the read at the paced target fails and the fallback
    read of frame 0 succeeds, the emitted frame is frame 0 but its [pts] is
    computed from the paced target, and [start_time] is exactly what a
    successful read would have left: the pacing is not restarted. *)
Theorem recv_fallback_keeps_target_pts (t : track) (w w' : world)
    (fr : av_frame) :
  recv clock t w = (Ok fr, w') ->
  decodable (cap t) (paced_target t w) = false ->
  content fr = 0 /\
  pts_of t (paced_target t w) = Ok (pts fr) /\
  start_time w' =
    (if looped t w then Some (clock (pred (tick w')))
     else match start_time w with Some s => Some s | None => Some (clock (tick w)) end).
Proof.
  intros Hr Hd. apply recv_cases in Hr as (_ & Hst & _ & Hres).
  rewrite Hd in Hres.
  destruct (decodable (cap t) 0); [|discriminate].
  destruct (pts_of t (paced_target t w)); [|discriminate].
  injection Hres as ->. auto.
Qed.

(** The [pts] computation multiplies and truncates; it never divides. *)
Lemma frame_pts_not_division (target : Z) (fd : float) :
  frame_pts target fd <> Err ZeroDivisionError.
Proof.
  unfold frame_pts, py_float_of_int, py_int_float.
  destruct (float_of_Z target); try discriminate.
  all: destruct (fmul (fmul _ fd) (float_of_Z 90000)); discriminate.
Qed.

(** [recv] raises what [cvtColor] raises when the read fails at both the
    target and frame 0, and what the float conversions of the [pts]
    computation raise; never a division fault. *)
Lemma recv_errors_not_division (t : track) (w w' : world) (e : py_error) :
  recv clock t w = (Err e, w') -> e <> ZeroDivisionError.
Proof.
  intros Hr He. subst e. apply recv_cases in Hr as (_ & _ & _ & Hres).
  pose proof (frame_pts_not_division (paced_target t w) (frame_duration t)) as Hn.
  unfold pts_of in Hres.
  destruct (decodable (cap t) (paced_target t w)), (decodable (cap t) 0);
    destruct (frame_pts (paced_target t w) (frame_duration t)); congruence.
Qed.

End Pacing.

(** Claim C9 (as amended): an asset that cannot be opened makes
    [__init__] raise [ValueError]; an asset whose fps reads as zero makes
    the unguarded [1.0 / self.fps] of [__init__] raise [ZeroDivisionError]
    at construction; [recv] only multiplies by fps and never raises
    [ZeroDivisionError]. *)
Theorem init_zero_fps_divides_by_zero :
  (forall a, opened a = false ->
     init a = Err (ValueError ("Could not open video file: " ++ video_path a))) /\
  (forall a, opened a = true -> Qeq_bool (prop_fps a) 0 = true ->
     init a = Err ZeroDivisionError) /\
  (forall clock t w w' e, recv clock t w = (Err e, w') -> e <> ZeroDivisionError).
Proof.
  split; [|split].
  - intros a Ho. unfold init. rewrite Ho. reflexivity.
  - intros a Ho Hz. unfold init, py_float_div. rewrite Ho.
    destruct (prop_fps a) as [n d]. apply Qeq_bool_iff in Hz. unfold Qeq in Hz.
    cbn [Qnum Qden] in Hz. replace n with 0 by lia. reflexivity.
  - intros clock t w w' e Hr. exact (recv_errors_not_division clock t w w' e Hr).
Qed.

(** ** Concrete runs *)

(** A 640x480 asset at 11 fps with 100 frames whose frame 7 does not
    decode. *)
Definition asset_demo : asset :=
  mkAsset "sbs.mp4" true (11 # 1) 640 480 100 (fun i => negb (i =? 7)).

Definition track_demo : track :=
  mkTrack asset_demo 11 640 480 100 (fdiv (float_of_Q 1) (float_of_Q 11)).

(** The same at 30 fps, with 300 frames that all decode. *)
Definition asset_demo30 : asset :=
  mkAsset "sbs.mp4" true (30 # 1) 640 480 300 (fun _ => true).

Definition track_demo30 : track :=
  mkTrack asset_demo30 30 640 480 300 (fdiv (float_of_Q 1) (float_of_Q 30)).

Definition world_demo : world := mkWorld (Some 0%Q) 0 0 5 [].

(** A clock that reads [q] at every call. *)
Definition clock_at (q : Q) : nat -> Q := fun _ => q.

Lemma init_demo : init asset_demo = Ok (track_demo, mkWorld None 0 0 0 []).
Proof. reflexivity. Qed.

Lemma init_demo30 : init asset_demo30 = Ok (track_demo30, mkWorld None 0 0 0 []).
Proof. reflexivity. Qed.

(** Counterexample to claim C2: one frame period after the start at
    11 fps the target is 1 and [pts] is [8181], while
    [round(1/11 * 90000) = 8182]; at 30 fps, 21 frame periods after the
    start the target is 21 and the double [21 * (1.0/30) * 90000] is just
    below 63000, so [pts] is [62999], while [round(21/30 * 90000) = 63000]. *)
Lemma recv_pts_not_rounded :
  paced_target (clock_at (1 # 11)) track_demo world_demo = 1 /\
  fst (recv (clock_at (1 # 11)) track_demo world_demo)
    = Ok (mkFrame 1 8181 (1 # 90000)) /\
  py_round (inject_Z 1 / fps track_demo * 90000) = 8182 /\
  paced_target (clock_at (21 # 30)) track_demo30 world_demo = 21 /\
  fst (recv (clock_at (21 # 30)) track_demo30 world_demo)
    = Ok (mkFrame 21 62999 (1 # 90000)) /\
  py_round (inject_Z 21 / fps track_demo30 * 90000) = 63000.
Proof. vm_compute. auto 7. Qed.

(** Counterexample to claim C7: at the end of the asset (elapsed
    100/11 s, target 100) the call loops and [start_time] becomes the clock
    reading, not [None]. *)
Lemma recv_loop_keeps_start_time :
  In EvLoop (log (snd (recv (clock_at (100 # 11)) track_demo world_demo))) /\
  start_time (snd (recv (clock_at (100 # 11)) track_demo world_demo))
    = Some (100 # 11)%Q.
Proof. vm_compute. auto 7. Qed.

(** Counterexample to claim C9: zero fps fails at construction with the
    division fault, not with an asset-validation error. *)
Lemma init_zero_fps_demo :
  init (mkAsset "sbs.mp4" true 0 640 480 100 (fun _ => true)) = Err ZeroDivisionError.
Proof. reflexivity. Qed.

Lemma recv_index_below_count_and_loop_iff_witness :
  exists evs,
    log (snd (recv (clock_at (100 # 11)) track_demo world_demo)) = log world_demo ++ evs /\
    (In EvLoop evs <->
       frame_count track_demo <= Qfloor (elapsed (clock_at (100 # 11)) world_demo * fps track_demo)).
Proof.
  destruct (recv_index_below_count_and_loop_iff (clock_at (100 # 11)) track_demo world_demo
              (snd (recv (clock_at (100 # 11)) track_demo world_demo))
              (fst (recv (clock_at (100 # 11)) track_demo world_demo)))
    as (evs & H1 & _ & _ & _ & H5).
  - vm_compute. reflexivity.
  - vm_compute. reflexivity.
  - exists evs. split; [exact H1 | exact H5].
Defined.

Lemma recv_pts_truncated_witness :
  exists tf, py_float_of_int (paced_target (clock_at (21 # 30)) track_demo30 world_demo) = Ok tf /\
    py_int_float (fmul (fmul tf (fdiv (float_of_Q 1) (float_of_Q (fps track_demo30))))
                    (float_of_Z 90000))
    = Ok (pts (mkFrame 21 62999 (1 # 90000))).
Proof.
  destruct (recv_pts_truncated (clock_at (21 # 30)) asset_demo30 track_demo30
              (mkWorld None 0 0 0 []) world_demo
              (snd (recv (clock_at (21 # 30)) track_demo30 world_demo))
              (mkFrame 21 62999 (1 # 90000))) as [H _].
  - reflexivity.
  - vm_compute. reflexivity.
  - exact H.
Defined.

Lemma recv_state_after_loop_or_decode_failure_witness :
  frame_index (snd (recv (clock_at (100 # 11)) track_demo world_demo)) = 0 /\
  (exists s, start_time (snd (recv (clock_at (100 # 11)) track_demo world_demo)) = Some s).
Proof.
  destruct (recv_state_after_loop_or_decode_failure (clock_at (100 # 11)) track_demo
              world_demo (snd (recv (clock_at (100 # 11)) track_demo world_demo))
              (fst (recv (clock_at (100 # 11)) track_demo world_demo)))
    as (H1 & H2 & _).
  - vm_compute. reflexivity.
  - split; [exact H1 | exact H2].
Defined.

(** At 7/11 s the target is 7, which does not decode: frame 0 is sent with
    the [pts] of frame 7. *)
Lemma recv_fallback_keeps_target_pts_witness :
  content (mkFrame 0 57272 (1 # 90000)) = 0 /\
  pts_of track_demo (paced_target (clock_at (7 # 11)) track_demo world_demo)
    = Ok (pts (mkFrame 0 57272 (1 # 90000))).
Proof.
  destruct (recv_fallback_keeps_target_pts (clock_at (7 # 11)) track_demo world_demo
              (snd (recv (clock_at (7 # 11)) track_demo world_demo))
              (mkFrame 0 57272 (1 # 90000)))
    as (H1 & H2 & _).
  - vm_compute. reflexivity.
  - vm_compute. reflexivity.
  - split; [exact H1 | exact H2].
Defined.

End PublisherFacts.

(** ** Publisher: [WebRTCPublisher] and its [/offer] handler *)
Module Signaling.
Import Publisher.
Local Open Scope string_scope.

(** [str(e)] of the exceptions reaching the handler. *)
Definition py_str (e : py_error) : string :=
  match e with
  | ValueError msg => msg
  | ZeroDivisionError => "float division by zero"
  | TypeError => "unsupported operand type(s)"
  | Cv2Error => "OpenCV error"
  | BroadcastError => "could not broadcast input array"
  | OverflowError msg => msg
  end.

(** The publisher's fields: [self.pc] and [self.video_track] (numbered
    handles from the media engine), the next handle the engine allocates
    and the handles closed so far. *)
Record pstate := mkP {
  pc : option nat;
  video_track : option (track * world);
  next_id : nat;
  closed : list nat
}.

(** The parsed request body: a JSON object, or a body [request.json()]
    cannot decode (with the decoder's message). *)
Inductive request :=
| ReqJson (params : list (string * string))
| ReqMalformed (decode_msg : string).

Inductive body :=
| JsonBody (fields : list (string * string))   (* content_type="application/json" *)
| TextBody (text : string).                     (* web.Response(text=...) *)

Record response := mkResp { status : Z; resp_body : body }.

(** Python dict lookup on a decoded JSON object: a repeated key keeps its
    last value. *)
Definition lookup (k : string) (params : list (string * string)) : option string :=
  match find (fun kv => String.eqb (fst kv) k) (rev params) with
  | Some kv => Some (snd kv)
  | None => None
  end.

Section Handler.

(** The video file the publisher serves. *)
Variable video : asset.

(** [RTCSessionDescription(sdp, type)]: [Some msg] when the constructor
    raises [ValueError(msg)] (a type it does not know). *)
Variable description_error : string -> option string.

(** The engine's [setRemoteDescription(offer)], [createAnswer()] and
    [setLocalDescription(answer)] on a fresh connection: the answer SDP, or
    the message of the exception one of them raises. *)
Variable negotiate : string -> string -> string + string.

(** [_reset_connection] *)
Definition reset_connection (st : pstate) : pstate :=
  let closed' := match pc st with Some h => app (closed st) [h] | None => closed st end in
  mkP None None (next_id st) closed'.

(** [_create_new_connection]: the new [self.pc] is set before the video
    track is built, so a failing track leaves it in place. *)
Definition create_new_connection (st : pstate) : result nat * pstate :=
  let st1 := reset_connection st in
  let h := next_id st1 in
  let st2 := mkP (Some h) None (S h) (closed st1) in
  match init video with
  | Err e => (Err e, st2)
  | Ok tw => (Ok h, mkP (Some h) (Some tw) (S h) (closed st1))
  end.

(** The body of the [try] block of [offer_handler]. *)
Definition offer_try (st : pstate) (req : request)
  : result (list (string * string)) * pstate :=
  match req with
  | ReqMalformed msg => (Err (ValueError msg), st)
  | ReqJson params =>
    match lookup "sdp" params, lookup "type" params with
    | Some sdp_data, Some sdp_type =>
      match description_error sdp_type with
      | Some msg => (Err (ValueError msg), st)
      | None =>
        match create_new_connection st with
        | (Err e, st') => (Err e, st')
        | (Ok _, st') =>
          match negotiate sdp_data sdp_type with
          | inl msg => (Err (ValueError msg), st')
          | inr answer_sdp => (Ok [("sdp", answer_sdp); ("type", "answer")], st')
          end
        end
      end
    | _, _ => (Err (ValueError "Missing required SDP parameters"), st)
    end
  end.

(** [offer_handler]: the [except] turns any exception into a 500 whose
    body is [str(e)] as plain text. *)
Definition offer_handler (st : pstate) (req : request) : response * pstate :=
  match offer_try st req with
  | (Ok fields, st') => (mkResp 200 (JsonBody fields), st')
  | (Err e, st') => (mkResp 500 (TextBody (py_str e)), st')
  end.

End Handler.

(** The claim's reading of the error body: a JSON object with an
    [error] field. *)
Definition is_json_error_body (b : body) : bool :=
  match b with
  | JsonBody fields => match lookup "error" fields with Some _ => true | None => false end
  | TextBody _ => false
  end.


Section HandlerFacts.
Variable video : asset.
Variable description_error : string -> option string.
Variable negotiate : string -> string -> string + string.

(** Claim C8 (as amended): a body without [sdp] or without [type] gets a
    500 whose body is the plain-text message, and the publisher state is
    untouched; a
    following offer that the video file and the engine accept gets a 200
    with the JSON answer on a fresh connection. *)
Theorem offer_missing_sdp_then_valid_offer
    (st : pstate) (params : list (string * string)) (sdp ans : string)
    (tw : track * world) :
  lookup "sdp" params = None \/ lookup "type" params = None ->
  init video = Ok tw ->
  description_error "offer" = None ->
  negotiate sdp "offer" = inr ans ->
  offer_handler video description_error negotiate st (ReqJson params)
    = (mkResp 500 (TextBody "Missing required SDP parameters"), st) /\
  offer_handler video description_error negotiate st (ReqJson [("sdp", sdp); ("type", "offer")])
    = (mkResp 200 (JsonBody [("sdp", ans); ("type", "answer")]),
       mkP (Some (next_id st)) (Some tw) (S (next_id st))
           (match pc st with Some h => app (closed st) [h] | None => closed st end)).
Proof.
  intros Hs Hv Hd Hn. split.
  - unfold offer_handler, offer_try.
    destruct Hs as [Hs|Hs]; rewrite Hs; [reflexivity|].
    destruct (lookup "sdp" params); reflexivity.
  - unfold offer_handler, offer_try, create_new_connection, reset_connection.
    cbn [lookup rev app find fst snd String.eqb].
    cbn. rewrite Hd, Hv, Hn. reflexivity.
Qed.

End HandlerFacts.

(** ** Concrete requests *)

Definition asset_demo_video : asset :=
  mkAsset "sbs.mp4" true (30 # 1) 640 480 300 (fun _ => true).

Definition track_demo_video : track :=
  mkTrack asset_demo_video 30 640 480 300 (fdiv (float_of_Q 1) (float_of_Q 30)).

Definition state_demo : pstate := mkP None None 0 [].

Definition negotiate_demo (sdp typ : string) : string + string :=
  if String.eqb typ "offer" then inr "v=0 answer" else inl "Invalid type".

(** Counterexample to claim C8: the 500 carries the plain-text message,
    not a JSON object with an [error] field. *)
Lemma offer_missing_sdp_text_body :
  fst (offer_handler asset_demo_video (fun _ => None) negotiate_demo state_demo
         (ReqJson [("type", "offer")]))
    = mkResp 500 (TextBody "Missing required SDP parameters") /\
  is_json_error_body
    (resp_body (fst (offer_handler asset_demo_video (fun _ => None) negotiate_demo state_demo
                       (ReqJson [("type", "offer")])))) = false.
Proof. split; reflexivity. Qed.

Lemma offer_missing_sdp_then_valid_offer_witness :
  offer_handler asset_demo_video (fun _ => None) negotiate_demo state_demo
      (ReqJson [("type", "offer")])
    = (mkResp 500 (TextBody "Missing required SDP parameters"), state_demo).
Proof.
  destruct (offer_missing_sdp_then_valid_offer asset_demo_video (fun _ => None)
              negotiate_demo state_demo [("type", "offer")] "v=0 offer" "v=0 answer"
              (track_demo_video, mkWorld None 0 0 0 [])) as [H1 _].
  - left. reflexivity.
  - reflexivity.
  - reflexivity.
  - reflexivity.
  - exact H1.
Defined.

End Signaling.

(** ** Publisher: the [/answer] handler and the connection handles *)
Module Answering.
Import Publisher Signaling.
Local Open Scope string_scope.

(** The exceptions of [answer_handler]: the [KeyError] of [params["sdp"]],
    and any other exception with its message. *)
Inductive answer_exc :=
| AKeyError (key : string)
| AError (msg : string).

(** [str(e)]: a [KeyError] prints its key in quotes. *)
Definition answer_exc_str (e : answer_exc) : string :=
  match e with
  | AKeyError k => "'" ++ k ++ "'"
  | AError msg => msg
  end.

Section AnswerHandler.

(** [self.pc.setRemoteDescription(RTCSessionDescription(sdp, "answer"))]
    on connection [h]: [Some msg] when it raises. *)
Variable set_remote_answer : nat -> string -> option string.

(** The [try] block of [answer_handler], with [handle_answer] inlined:
    the exception raised, if any, and the [setRemoteDescription] calls
    made. The handler assigns no field of the publisher. *)
Definition answer_try (st : pstate) (req : request)
  : option answer_exc * list (nat * string) :=
  match req with
  | ReqMalformed msg => (Some (AError msg), [])
  | ReqJson params =>
    match pc st with
    | None => (None, [])
    | Some h =>
      match lookup "sdp" params with
      | None => (Some (AKeyError "sdp"), [])
      | Some sdp =>
        match set_remote_answer h sdp with
        | Some msg => (Some (AError msg), [(h, sdp)])
        | None => (None, [(h, sdp)])
        end
      end
    end
  end.

(** [answer_handler]: [web.Response(text="OK")], or a 500 with [str(e)]. *)
Definition answer_handler (st : pstate) (req : request)
  : response * list (nat * string) :=
  let '(exc, calls) := answer_try st req in
  match exc with
  | None => (mkResp 200 (TextBody "OK"), calls)
  | Some e => (mkResp 500 (TextBody (answer_exc_str e)), calls)
  end.

End AnswerHandler.

(** A sequence of [/offer] requests served one after the other (the
    handler holds [_connection_lock]). *)
Fixpoint run_offers (video : asset) (description_error : string -> option string)
    (negotiate : string -> string -> string + string)
    (st : pstate) (reqs : list request) : pstate :=
  match reqs with
  | [] => st
  | r :: rs =>
    run_offers video description_error negotiate
      (snd (offer_handler video description_error negotiate st r)) rs
  end.

(** The publisher's fields from [WebRTCPublisher.__init__]. *)
Definition pstate_init : pstate := mkP None None 0 [].

(** Connection handles are used once: every handle closed was allocated,
    none is closed twice, and the live [self.pc] was allocated and never
    closed. *)
Definition handles_ok (st : pstate) : Prop :=
  NoDup (closed st) /\
  Forall (fun h => (h < next_id st)%nat) (closed st) /\
  match pc st with
  | Some h => (h < next_id st)%nat /\ ~ In h (closed st)
  | None => True
  end.

Lemma handles_ok_create (video : asset) (st : pstate) :
  handles_ok st -> handles_ok (snd (create_new_connection video st)).
Proof.
  intros (Hnd & Hlt & Hpc).
  assert (Hc : handles_ok (mkP (Some (next_id st)) None (S (next_id st))
                             (closed (reset_connection st)))).
  { unfold reset_connection. cbn [pc closed next_id].
    destruct (pc st) as [h|] eqn:Ep.
    - destruct Hpc as [Hh Hni]. repeat split; cbn.
      + apply NoDup_app; [exact Hnd|constructor; [intros []|constructor]|].
        intros x Hx Hx'. destruct Hx' as [<-|[]]. contradiction.
      + apply Forall_app. split.
        * eapply Forall_impl; [|exact Hlt]. cbn. intros; lia.
        * constructor; [lia|constructor].
      + lia.
      + intros Hin. apply in_app_or in Hin as [Hin|[Hin|[]]].
        * rewrite Forall_forall in Hlt. apply Hlt in Hin. lia.
        * lia.
    - repeat split; cbn.
      + exact Hnd.
      + eapply Forall_impl; [|exact Hlt]. cbn. intros; lia.
      + lia.
      + intros Hin. rewrite Forall_forall in Hlt. apply Hlt in Hin. lia. }
  unfold create_new_connection. cbn zeta.
  destruct (init video) as [tw|e]; cbn [snd]; unfold handles_ok in *; cbn in *; exact Hc.
Qed.

Lemma handles_ok_offer (video : asset) (description_error : string -> option string)
    (negotiate : string -> string -> string + string) (st : pstate) (req : request) :
  handles_ok st -> handles_ok (snd (offer_handler video description_error negotiate st req)).
Proof.
  intros H. unfold offer_handler, offer_try.
  destruct req as [params|msg]; [|exact H].
  destruct (lookup "sdp" params), (lookup "type" params); try exact H.
  destruct (description_error _); [exact H|].
  pose proof (handles_ok_create video st H) as Hc.
  destruct (create_new_connection video st) as [[h|e] st'] eqn:E; cbn [snd] in Hc.
  - destruct (negotiate _ _); exact Hc.
  - exact Hc.
Qed.

(** Every sequence of [/offer] requests, whatever the requests, the video
    file and the engine do, keeps [handles_ok] from the initial state:
    [_reset_connection] never closes a connection twice and [self.pc] is
    never a closed connection. *)
Theorem run_offers_handles_ok (video : asset) (description_error : string -> option string)
    (negotiate : string -> string -> string + string) (reqs : list request) :
  handles_ok (run_offers video description_error negotiate pstate_init reqs).
Proof.
  assert (H0 : handles_ok pstate_init) by (repeat split; cbn; constructor).
  revert H0. generalize pstate_init.
  induction reqs as [|r rs IH]; intros st Hst; cbn [run_offers]; [exact Hst|].
  apply IH, handles_ok_offer, Hst.
Qed.

(** With no peer connection, [/answer] answers 200 "OK" to any JSON body,
    with or without an [sdp] field, and calls nothing; the body is read
    before [self.pc] is checked, so a body that is not JSON gets a 500
    with the decoder's message. *)
Theorem answer_without_connection_ok (set_remote_answer : nat -> string -> option string)
    (st : pstate) :
  pc st = None ->
  (forall params, answer_handler set_remote_answer st (ReqJson params)
                  = (mkResp 200 (TextBody "OK"), [])) /\
  (forall msg, answer_handler set_remote_answer st (ReqMalformed msg)
               = (mkResp 500 (TextBody msg), [])).
Proof.
  intros H. split.
  - intros params. unfold answer_handler, answer_try. rewrite H. reflexivity.
  - intros msg. reflexivity.
Qed.

(** With a peer connection [h], a body without [sdp] gets a 500 whose text
    is the [KeyError]'s ['sdp'] and calls nothing; a body with [sdp] is
    passed to [setRemoteDescription] on [h] exactly once, and the reply is
    200 "OK" or a 500 with the engine's message. *)
Theorem answer_with_connection (set_remote_answer : nat -> string -> option string)
    (st : pstate) (h : nat) (params : list (string * string)) :
  pc st = Some h ->
  (lookup "sdp" params = None ->
   answer_handler set_remote_answer st (ReqJson params)
   = (mkResp 500 (TextBody "'sdp'"), [])) /\
  (forall sdp, lookup "sdp" params = Some sdp ->
   answer_handler set_remote_answer st (ReqJson params)
   = (match set_remote_answer h sdp with
      | None => mkResp 200 (TextBody "OK")
      | Some msg => mkResp 500 (TextBody msg)
      end, [(h, sdp)])).
Proof.
  intros Hpc. unfold answer_handler, answer_try. rewrite Hpc. split.
  - intros Hs. rewrite Hs. reflexivity.
  - intros sdp Hs. rewrite Hs. destruct (set_remote_answer h sdp); reflexivity.
Qed.

(** An offer that passes validation but fails afterwards (the video file
    cannot be opened, or the engine rejects the offer) gets a 500 with the
    exception's text, the previous connection is closed, and the new,
    failed connection stays in [self.pc] until the next offer. *)
Theorem offer_failure_keeps_new_connection (video : asset)
    (description_error : string -> option string)
    (negotiate : string -> string -> string + string)
    (st : pstate) (params : list (string * string)) (sdp typ : string) :
  lookup "sdp" params = Some sdp -> lookup "type" params = Some typ ->
  description_error typ = None ->
  let closed' := match pc st with Some h => app (closed st) [h] | None => closed st end in
  (forall e, init video = Err e ->
   offer_handler video description_error negotiate st (ReqJson params)
   = (mkResp 500 (TextBody (py_str e)), mkP (Some (next_id st)) None (S (next_id st)) closed')) /\
  (forall tw msg, init video = Ok tw -> negotiate sdp typ = inl msg ->
   offer_handler video description_error negotiate st (ReqJson params)
   = (mkResp 500 (TextBody msg), mkP (Some (next_id st)) (Some tw) (S (next_id st)) closed')).
Proof.
  intros Hs Ht Hd closed'.
  unfold offer_handler, offer_try, create_new_connection, reset_connection.
  rewrite Hs, Ht, Hd. cbn [pc next_id closed]. split.
  - intros e He. rewrite He. reflexivity.
  - intros tw msg Hv Hn. rewrite Hv, Hn. reflexivity.
Qed.

(** ** Concrete requests *)

Definition remote_demo (h : nat) (sdp : string) : option string :=
  if String.eqb sdp "" then Some "Invalid SDP" else None.

Definition asset_missing : asset :=
  mkAsset "missing.mp4" false 0 0 0 0 (fun _ => true).

Lemma answer_without_connection_ok_witness :
  answer_handler remote_demo state_demo (ReqJson [("type", "answer")])
  = (mkResp 200 (TextBody "OK"), []) /\
  answer_handler remote_demo state_demo (ReqMalformed "Expecting value")
  = (mkResp 500 (TextBody "Expecting value"), []).
Proof.
  destruct (answer_without_connection_ok remote_demo state_demo eq_refl) as [H1 H2].
  split; [apply H1 | apply H2].
Defined.

Lemma answer_with_connection_witness :
  answer_handler remote_demo (mkP (Some 3%nat) None 4 []) (ReqJson [("type", "answer")])
  = (mkResp 500 (TextBody "'sdp'"), []) /\
  answer_handler remote_demo (mkP (Some 3%nat) None 4 []) (ReqJson [("sdp", "v=0")])
  = (mkResp 200 (TextBody "OK"), [(3%nat, "v=0")]).
Proof.
  destruct (answer_with_connection remote_demo (mkP (Some 3%nat) None 4 [])
              3 [("type", "answer")] eq_refl) as [H1 _].
  destruct (answer_with_connection remote_demo (mkP (Some 3%nat) None 4 [])
              3 [("sdp", "v=0")] eq_refl) as [_ H2].
  split; [apply H1; reflexivity|apply (H2 "v=0"); reflexivity].
Defined.

Lemma offer_failure_keeps_new_connection_witness :
  offer_handler asset_missing (fun _ => None) negotiate_demo (mkP (Some 0%nat) None 1 [])
    (ReqJson [("sdp", "v=0"); ("type", "offer")])
  = (mkResp 500 (TextBody "Could not open video file: missing.mp4"),
     mkP (Some 1%nat) None 2 [0%nat]).
Proof.
  destruct (offer_failure_keeps_new_connection asset_missing (fun _ => None) negotiate_demo
              (mkP (Some 0%nat) None 1 []) [("sdp", "v=0"); ("type", "offer")] "v=0" "offer"
              eq_refl eq_refl eq_refl) as [H1 _].
  exact (eq_trans (H1 _ eq_refl) eq_refl).
Defined.

End Answering.

(** ** Receiver: [VideoReceiver.process_3d_frame] *)
Module Receiver.

(** An RGB pixel, a numpy [uint8] array of shape [(h, w, 3)] as its rows,
    and a single-channel array of shape [(h, w)]. *)
Definition px := (Z * Z * Z)%type.
Definition image := list (list px).
Definition gray_image := list (list Z).

Definition black : px := (0, 0, 0).

(** [arr.shape[:2]]: rows, and the length of the first row. *)
Definition nrows {A} (a : list (list A)) : Z := Z.of_nat (List.length a).
Definition ncols {A} (a : list (list A)) : Z :=
  match a with [] => 0 | row :: _ => Z.of_nat (List.length row) end.

(** [np.zeros((h, w))] with the given zero. *)
Definition zeros {A} (z : A) (h w : Z) : list (list A) :=
  repeat (repeat z (Z.to_nat w)) (Z.to_nat h).

(** Python's normalisation of a slice bound against a length. *)
Definition py_norm (len i : Z) : Z :=
  if i <? 0 then Z.max 0 (i + len) else Z.min i len.

(** The half-open range [start:stop] selects, for a sequence of length [len]. *)
Definition bounds (len : Z) (start stop : option Z) : Z * Z :=
  (match start with None => 0 | Some s => py_norm len s end,
   match stop with None => len | Some s => py_norm len s end).

Definition py_slice {A} (l : list A) (start stop : option Z) : list A :=
  let '(a, b) := bounds (Z.of_nat (List.length l)) start stop in
  firstn (Z.to_nat (b - a)) (skipn (Z.to_nat a) l).

(** [arr[:, start:stop]] *)
Definition cols {A} (a : list (list A)) (start stop : option Z) : list (list A) :=
  map (fun row => py_slice row start stop) a.

Fixpoint mapi_from {A B} (f : Z -> A -> B) (i : Z) (l : list A) : list B :=
  match l with
  | [] => []
  | x :: l' => f i x :: mapi_from f (i + 1) l'
  end.

Definition mapi {A B} (f : Z -> A -> B) (l : list A) : list B := mapi_from f 0 l.

Definition zseq (n : Z) : list Z := map Z.of_nat (seq 0 (Z.to_nat n)).

(** numpy broadcasting of one source dimension [s] to a target dimension [r]. *)
Definition broadcasts (s r : Z) : bool := (s =? r) || (s =? 1).

(** Row [i] of the region, read from [src] with broadcasting, [rw] wide. *)
Definition bcast_row {A} (d : A) (src : list (list A)) (i rw : Z) : list A :=
  let srow := nth (Z.to_nat (if nrows src =? 1 then 0 else i)) src [] in
  map (fun j => nth (Z.to_nat (if ncols src =? 1 then 0 else j)) srow d) (zseq rw).

(** [row[ca:cb] = seg] for normalised bounds. *)
Definition splice {A} (row : list A) (ca cb : Z) (seg : list A) : list A :=
  firstn (Z.to_nat ca) row ++ seg ++ skipn (Z.to_nat (Z.max ca cb)) row.

(** Rows [ra..rb) of [img] with columns [ca..cb) replaced by [src]. *)
Definition fill_region {A} (d : A) (img : list (list A)) (ra rb ca cb rw : Z)
    (src : list (list A)) : list (list A) :=
  mapi (fun i row =>
          if (ra <=? i) && (i <? rb)
          then splice row ca cb (bcast_row d src (i - ra) rw)
          else row) img.

(** [img[rs:re, cs:ce] = src]: raises unless [src]'s shape broadcasts to
    the region's. *)
Definition assign {A} (d : A) (img : list (list A)) (rs re cs ce : option Z)
    (src : list (list A)) : result (list (list A)) :=
  let '(ra, rb) := bounds (nrows img) rs re in
  let '(ca, cb) := bounds (ncols img) cs ce in
  let rh := Z.max 0 (rb - ra) in
  let rw := Z.max 0 (cb - ca) in
  if broadcasts (nrows src) rh && broadcasts (ncols src) rw
  then Ok (fill_region d img ra rb ca cb rw src)
  else Err BroadcastError.

(** Channel [c] of a pixel. *)
Definition set_px (c : Z) (p : px) (v : Z) : px :=
  let '(r, g, b) := p in
  if c =? 0 then (v, g, b) else if c =? 1 then (r, v, b) else (r, g, v).

(** Channel [c] of every pixel of [img] replaced by [src]. *)
Definition fill_channel (img : image) (c : Z) (src : gray_image) : image :=
  mapi (fun i row =>
          let srow := nth (Z.to_nat (if nrows src =? 1 then 0 else i)) src [] in
          mapi (fun j p =>
                  set_px c p (nth (Z.to_nat (if ncols src =? 1 then 0 else j)) srow 0))
               row) img.

(** [img[:, :, c] = src] *)
Definition assign_channel (img : image) (c : Z) (src : gray_image) : result image :=
  if broadcasts (nrows src) (nrows img) && broadcasts (ncols src) (ncols img)
  then Ok (fill_channel img c src)
  else Err BroadcastError.

(** OpenCV's [COLOR_RGB2GRAY] on 8-bit pixels: fixed-point luminance with
    14 fractional bits (coefficients 4899, 9617, 1868). *)
Definition gray_px (p : px) : Z :=
  let '(r, g, b) := p in
  Z.shiftr (r * 4899 + g * 9617 + b * 1868 + Z.shiftl 1 13) 14.

(** [cv2.cvtColor(frame, cv2.COLOR_RGB2GRAY)]: fails on an empty image. *)
Definition cvt_gray (frame : image) : result gray_image :=
  if (nrows frame =? 0) || (ncols frame =? 0) then Err Cv2Error
  else Ok (map (map gray_px) frame).

Definition rbind {A B} (m : result A) (k : A -> result B) : result B :=
  match m with Ok a => k a | Err e => Err e end.

Local Notation "x <- m ;; k" := (rbind m (fun x => k))
  (at level 61, m at next level, right associativity).

Section Transform.

(** [cv2.resize(src, (width, height))] (bilinear), or the error it raises. *)
Variable resize : image -> Z -> Z -> result image.

(** [int((width//2) * height / (width - offset))] *)
Definition new_height_of (height width offset : Z) : result Z :=
  q <- py_truediv (inject_Z (width / 2 * height)) (inject_Z (width - offset)) ;;
  Ok (py_int q).

(** The cross-eye branch: the crop trimmed on the left goes to the left
    half, the crop trimmed on the right to the right half. *)
Definition cross_eye (frame : image) (offset : Z) : result image :=
  let height := nrows frame in
  let width := ncols frame in
  let side_by_side := zeros black height width in
  let left_half := cols frame (Some offset) None in
  new_height <- new_height_of height width offset ;;
  left_half_resized <- resize left_half (width / 2) new_height ;;
  let y_offset := (height - new_height) / 2 in
  side_by_side <- assign black side_by_side (Some y_offset) (Some (y_offset + new_height))
                    None (Some (width / 2)) left_half_resized ;;
  let right_half := cols frame None (Some (- offset)) in
  new_height <- new_height_of height width offset ;;
  right_half_resized <- resize right_half (width / 2) new_height ;;
  let y_offset := (height - new_height) / 2 in
  assign black side_by_side (Some y_offset) (Some (y_offset + new_height))
    (Some (width / 2)) None right_half_resized.

(** The parallel branch: the same crops, placed the other way round. *)
Definition parallel (frame : image) (offset : Z) : result image :=
  let height := nrows frame in
  let width := ncols frame in
  let side_by_side := zeros black height width in
  let left_half := cols frame None (Some (- offset)) in
  new_height <- new_height_of height width offset ;;
  left_half_resized <- resize left_half (width / 2) new_height ;;
  let y_offset := (height - new_height) / 2 in
  side_by_side <- assign black side_by_side (Some y_offset) (Some (y_offset + new_height))
                    None (Some (width / 2)) left_half_resized ;;
  let right_half := cols frame (Some offset) None in
  new_height <- new_height_of height width offset ;;
  right_half_resized <- resize right_half (width / 2) new_height ;;
  let y_offset := (height - new_height) / 2 in
  assign black side_by_side (Some y_offset) (Some (y_offset + new_height))
    (Some (width / 2)) None right_half_resized.

(** [right_shifted = np.zeros_like(gray_frame)];
    [right_shifted[:, offset:] = gray_frame[:, :-offset] if offset > 0 else gray_frame] *)
Definition shift_right (gray_frame : gray_image) (offset : Z) : result gray_image :=
  assign 0 (zeros 0 (nrows gray_frame) (ncols gray_frame)) None None (Some offset) None
    (if offset >? 0 then cols gray_frame None (Some (- offset)) else gray_frame).

(** The anaglyph branches: [left] receives the luminance, the two
    [right] channels its shifted copy. *)
Definition anaglyph (left right1 : Z) (frame : image) (offset : Z) : result image :=
  let height := nrows frame in
  let width := ncols frame in
  let anaglyph := zeros black height width in
  gray_frame <- cvt_gray frame ;;
  anaglyph <- assign_channel anaglyph left gray_frame ;;
  right_shifted <- shift_right gray_frame offset ;;
  anaglyph <- assign_channel anaglyph right1 right_shifted ;;
  assign_channel anaglyph 2 right_shifted.

(** [process_3d_frame], with [mode_var.get()] and [offset_var.get()] as
    arguments. *)
Definition process_3d_frame (mode : string) (offset : Z) (frame : image) : result image :=
  if String.eqb mode "side_by_side_cross_eye" then cross_eye frame offset
  else if String.eqb mode "side_by_side_parallel" then parallel frame offset
  else if String.eqb mode "anaglyph_red_cyan" then anaglyph 0 1 frame offset
  else if String.eqb mode "anaglyph_green_magenta" then anaglyph 1 0 frame offset
  else Ok frame.

End Transform.

End Receiver.

(** ** Receiver: facts about the transform *)
Module ReceiverFacts.
Import Receiver.

(** *** Indexed maps *)

Lemma length_mapi_from {A B} (f : Z -> A -> B) (i : Z) (l : list A) :
  List.length (mapi_from f i l) = List.length l.
Proof. revert i; induction l; intros i; cbn; auto. Qed.

Lemma mapi_from_fuse {A B C} (f : Z -> B -> C) (g : Z -> A -> B) (i : Z) (l : list A) :
  mapi_from f i (mapi_from g i l) = mapi_from (fun k x => f k (g k x)) i l.
Proof. revert i; induction l; intros i; cbn; f_equal; auto. Qed.

Lemma map_mapi_from {A B C} (h : B -> C) (f : Z -> A -> B) (i : Z) (l : list A) :
  map h (mapi_from f i l) = mapi_from (fun k x => h (f k x)) i l.
Proof. revert i; induction l; intros i; cbn; f_equal; auto. Qed.

Lemma mapi_from_ext_in {A B} (f g : Z -> A -> B) (i : Z) (l : list A) :
  (forall k x, In x l -> f k x = g k x) -> mapi_from f i l = mapi_from g i l.
Proof.
  revert i; induction l; intros i H; cbn; f_equal.
  - apply H. left. reflexivity.
  - apply IHl. intros k x Hx. apply H. right. exact Hx.
Qed.

Lemma nth_mapi_from {A B} (f : Z -> A -> B) (i : Z) (l : list A) (n : nat) (d : A) (e : B) :
  (n < List.length l)%nat -> nth n (mapi_from f i l) e = f (i + Z.of_nat n) (nth n l d).
Proof.
  revert i n; induction l as [|x l IH]; intros i n Hn; cbn in *; [lia|].
  destruct n as [|n]; [f_equal; lia|].
  rewrite IH by lia. f_equal. lia.
Qed.

Lemma nrows_mapi {A B} (f : Z -> list A -> list B) (img : list (list A)) :
  nrows (mapi f img) = nrows img.
Proof. unfold nrows, mapi. rewrite length_mapi_from. reflexivity. Qed.

(** *** Slices, zeros and region fills *)

Lemma py_norm_range (len i : Z) : 0 <= len -> 0 <= py_norm len i <= len.
Proof. intros H. unfold py_norm. destruct (i <? 0) eqn:E; [rewrite Z.ltb_lt in E|rewrite Z.ltb_ge in E]; lia. Qed.

Lemma py_norm_in (len i : Z) : 0 <= i <= len -> py_norm len i = i.
Proof. intros H. unfold py_norm. destruct (i <? 0) eqn:E; [rewrite Z.ltb_lt in E|]; lia. Qed.

Lemma nrows_zeros {A} (z : A) (h w : Z) : 0 <= h -> nrows (zeros z h w) = h.
Proof. intros H. unfold nrows, zeros. rewrite repeat_length. lia. Qed.

Lemma length_zseq (n : Z) : List.length (zseq n) = Z.to_nat n.
Proof. unfold zseq. rewrite length_map, length_seq. reflexivity. Qed.

Lemma length_bcast_row {A} (d : A) (src : list (list A)) (i rw : Z) :
  List.length (bcast_row d src i rw) = Z.to_nat rw.
Proof. unfold bcast_row. rewrite length_map. apply length_zseq. Qed.

Lemma length_splice {A} (row : list A) (ca cb : Z) (seg : list A) :
  0 <= ca <= Z.of_nat (List.length row) -> 0 <= cb <= Z.of_nat (List.length row) ->
  List.length seg = Z.to_nat (Z.max 0 (cb - ca)) ->
  List.length (splice row ca cb seg) = List.length row.
Proof.
  intros Ha Hb Hs. unfold splice.
  rewrite !length_app, length_firstn, length_skipn, Hs. lia.
Qed.

Lemma ncols_fill_region {A} (d : A) (img : list (list A)) (ra rb ca cb rw : Z)
    (src : list (list A)) :
  0 <= ca <= ncols img -> 0 <= cb <= ncols img -> rw = Z.max 0 (cb - ca) ->
  ncols (fill_region d img ra rb ca cb rw src) = ncols img.
Proof.
  destruct img as [|row img]; intros Ha Hb ->; [reflexivity|].
  unfold fill_region, mapi, ncols in *; cbn.
  destruct ((ra <=? 0) && (0 <? rb)); [|reflexivity].
  rewrite length_splice; auto. apply length_bcast_row.
Qed.

Lemma nrows_fill_region {A} (d : A) (img : list (list A)) (ra rb ca cb rw : Z)
    (src : list (list A)) :
  nrows (fill_region d img ra rb ca cb rw src) = nrows img.
Proof. apply nrows_mapi. Qed.

(** Filling the left then the right half of a row of [2n] cells. *)
Lemma splice_two_halves {A} (row s1 s2 : list A) (n : nat) :
  List.length row = (n + n)%nat -> List.length s1 = n -> List.length s2 = n ->
  splice (splice row 0 (Z.of_nat n) s1) (Z.of_nat n) (Z.of_nat (n + n)) s2 = s1 ++ s2.
Proof.
  intros Hr H1 H2. unfold splice.
  replace (Z.to_nat 0) with 0%nat by reflexivity.
  replace (Z.to_nat (Z.max 0 (Z.of_nat n))) with n by lia.
  replace (Z.to_nat (Z.of_nat n)) with n by lia.
  replace (Z.to_nat (Z.max (Z.of_nat n) (Z.of_nat (n + n)))) with (n + n)%nat by lia.
  cbn [firstn app].
  rewrite firstn_app, H1, Nat.sub_diag, firstn_O, app_nil_r.
  rewrite firstn_all2 by lia.
  rewrite skipn_app, H1. rewrite skipn_all2 by lia. cbn [app].
  rewrite skipn_skipn, skipn_all2 by (rewrite Hr; lia).
  rewrite app_nil_r. reflexivity.
Qed.

Lemma firstn_repeat_le {A} (x : A) (n k : nat) :
  (k <= n)%nat -> firstn k (repeat x n) = repeat x k.
Proof.
  revert n; induction k as [|k IH]; intros [|n] H; cbn; try reflexivity; [lia|].
  f_equal. apply IH. lia.
Qed.

Lemma skipn_repeat_any {A} (x : A) (n k : nat) :
  skipn k (repeat x n) = repeat x (n - k).
Proof.
  revert n; induction k as [|k IH]; intros [|n]; cbn; try reflexivity.
  apply IH.
Qed.

Lemma repeat_rotate {A} (x : A) (n k : nat) :
  (k <= n)%nat -> skipn k (repeat x n) ++ firstn k (repeat x n) = repeat x n.
Proof.
  intros H. rewrite skipn_repeat_any, firstn_repeat_le by exact H.
  rewrite <- repeat_app. f_equal. lia.
Qed.

(** *** Anaglyph modes *)

Definition swap_rg (p : px) : px := let '(r, g, b) := p in (g, r, b).

Lemma ncols_fill_channel (img : image) (c : Z) (src : gray_image) :
  ncols (fill_channel img c src) = ncols img.
Proof.
  destruct img as [|row img]; [reflexivity|].
  unfold fill_channel, mapi, ncols; cbn. rewrite length_mapi_from. reflexivity.
Qed.

Lemma nrows_fill_channel (img : image) (c : Z) (src : gray_image) :
  nrows (fill_channel img c src) = nrows img.
Proof. apply nrows_mapi. Qed.

(** *** Reading back rows and cells *)

Lemma nth_zeros {A} (z : A) (h w : Z) (i : nat) :
  (i < Z.to_nat h)%nat -> nth i (zeros z h w) [] = repeat z (Z.to_nat w).
Proof. intros H. unfold zeros. apply nth_repeat_lt. exact H. Qed.

Lemma ncols_zeros {A} (z : A) (h w : Z) :
  0 < h -> ncols (zeros z h w) = Z.max 0 w.
Proof.
  intros H. unfold zeros, ncols.
  destruct (Z.to_nat h) eqn:E; [lia|]. cbn. rewrite repeat_length. lia.
Qed.

Lemma in_zeros {A} (z : A) (h w : Z) (row : list A) :
  In row (zeros z h w) -> row = repeat z (Z.to_nat w).
Proof. unfold zeros. intros H. apply repeat_spec in H. exact H. Qed.

Lemma ncols_of_shape {A} (img : list (list A)) (n : nat) :
  img <> [] -> Forall (fun row => List.length row = n) img -> ncols img = Z.of_nat n.
Proof.
  intros Hne Hsh. destruct img as [|r img]; [congruence|].
  inversion Hsh; subst. reflexivity.
Qed.

Lemma Forall_zeros {A} (z : A) (h w : Z) :
  Forall (fun row => List.length row = Z.to_nat w) (zeros z h w).
Proof.
  apply Forall_forall. intros r Hr. apply in_zeros in Hr. subst r. apply repeat_length.
Qed.

Lemma Forall_mapi_from {A B} (P : A -> Prop) (Q : B -> Prop) (f : Z -> A -> B)
    (k : Z) (l : list A) :
  Forall P l -> (forall i x, P x -> Q (f i x)) -> Forall Q (mapi_from f k l).
Proof.
  intros H Hf. revert k. induction H as [|x l Hx _ IH]; intros k; cbn; constructor; auto.
Qed.

Lemma Forall_fill_channel (img : image) (c : Z) (src : gray_image) (n : nat) :
  Forall (fun row => List.length row = n) img ->
  Forall (fun row => List.length row = n) (fill_channel img c src).
Proof.
  intros H. unfold fill_channel, mapi. apply (Forall_mapi_from _ _ _ _ _ H).
  intros k r Hr. rewrite length_mapi_from. exact Hr.
Qed.

Lemma py_norm_nonneg (len i : Z) : 0 <= i -> py_norm len i = Z.min i len.
Proof. intros H. unfold py_norm. destruct (i <? 0) eqn:E; [rewrite Z.ltb_lt in E; lia|reflexivity]. Qed.

(** Cell [(i, j)] after [img[:, :, c] = src] with [src] of [img]'s shape. *)
Lemma nth_fill_channel (img : image) (c : Z) (src : gray_image) (n i j : nat) :
  Forall (fun row => List.length row = n) img ->
  Forall (fun row => List.length row = n) src ->
  List.length src = List.length img ->
  (i < List.length img)%nat -> (j < n)%nat ->
  nth j (nth i (fill_channel img c src) []) black =
  set_px c (nth j (nth i img []) black) (nth j (nth i src []) 0).
Proof.
  intros Hi Hs Hl Hin Hjn.
  assert (Hri : List.length (nth i img []) = n)
    by (rewrite Forall_forall in Hi; apply Hi, nth_In; lia).
  unfold fill_channel, mapi.
  rewrite (nth_mapi_from _ _ _ _ []) by exact Hin.
  rewrite (nth_mapi_from _ _ _ _ black) by lia.
  assert (Hr : Z.to_nat (if nrows src =? 1 then 0 else 0 + Z.of_nat i) = i).
  { unfold nrows. destruct (Z.of_nat (List.length src) =? 1) eqn:E; [|lia].
    rewrite Z.eqb_eq in E. lia. }
  assert (Hne : src <> []) by (intros ->; cbn in Hl; lia).
  assert (Hc : Z.to_nat (if ncols src =? 1 then 0 else 0 + Z.of_nat j) = j).
  { rewrite (ncols_of_shape src n Hne Hs).
    destruct (Z.of_nat n =? 1) eqn:E; [rewrite Z.eqb_eq in E|]; lia. }
  rewrite Hr, Hc. reflexivity.
Qed.

(** Element [j] of [row[ca:cb] = seg] when [cb] is the row's end. *)
Lemma nth_splice_to_end {A} (row seg : list A) (ca cb : Z) (j : nat) (d : A) :
  0 <= ca <= cb -> Z.to_nat cb = List.length row ->
  List.length seg = Z.to_nat (cb - ca) ->
  nth j (splice row ca cb seg) d =
  if (j <? Z.to_nat ca)%nat then nth j row d else nth (j - Z.to_nat ca) seg d.
Proof.
  intros Hc Hcb Hseg. unfold splice.
  rewrite (Z.max_r ca cb) by lia. rewrite Hcb, skipn_all, app_nil_r.
  assert (Hf : List.length (firstn (Z.to_nat ca) row) = Z.to_nat ca)
    by (rewrite length_firstn; lia).
  destruct (j <? Z.to_nat ca)%nat eqn:E.
  - apply Nat.ltb_lt in E. rewrite app_nth1 by lia.
    rewrite nth_firstn. apply Nat.ltb_lt in E. rewrite E. reflexivity.
  - apply Nat.ltb_ge in E. rewrite app_nth2 by lia. rewrite Hf. reflexivity.
Qed.

Lemma in_zseq (n j : Z) : In j (zseq n) -> 0 <= j < n.
Proof.
  unfold zseq. intros H. apply in_map_iff in H as (k & <- & Hk).
  apply in_seq in Hk. lia.
Qed.

Lemma map_nth_zseq {A} (l : list A) (d : A) :
  map (fun j => nth (Z.to_nat j) l d) (zseq (Z.of_nat (List.length l))) = l.
Proof.
  unfold zseq. rewrite map_map, Nat2Z.id.
  rewrite (map_ext _ (fun x => nth x l d)) by (intros; now rewrite Nat2Z.id).
  apply (nth_ext _ _ d d); rewrite ?length_map, ?length_seq; [reflexivity|].
  intros n Hn.
  rewrite (nth_indep _ d (nth 0 l d)) by (rewrite length_map, length_seq; exact Hn).
  rewrite (map_nth (fun x => nth x l d)), seq_nth by exact Hn. reflexivity.
Qed.

(** A source of exactly the region's shape is read row by row. *)
Lemma bcast_row_exact {A} (d : A) (src : list (list A)) (i rw : Z) :
  0 <= i < nrows src -> (nrows src = 1 -> i = 0) -> 0 <= rw ->
  Forall (fun row => List.length row = Z.to_nat rw) src ->
  bcast_row d src i rw = nth (Z.to_nat i) src [].
Proof.
  intros Hi H1 Hrw Hsh. unfold bcast_row.
  assert (Hidx : (if nrows src =? 1 then 0 else i) = i)
    by (destruct (nrows src =? 1) eqn:E; [rewrite Z.eqb_eq in E; symmetry|]; auto).
  rewrite Hidx.
  assert (Hrow : List.length (nth (Z.to_nat i) src []) = Z.to_nat rw).
  { rewrite Forall_forall in Hsh. apply Hsh, nth_In. unfold nrows in Hi. lia. }
  assert (Hc : ncols src = rw).
  { destruct src as [|r0 src]; [unfold nrows in Hi; cbn in Hi; lia|].
    inversion Hsh; subst. unfold ncols. lia. }
  rewrite Hc.
  transitivity (map (fun j => nth (Z.to_nat j) (nth (Z.to_nat i) src []) d) (zseq rw)).
  - apply map_ext_in. intros j Hj. apply in_zseq in Hj.
    destruct (rw =? 1) eqn:E; [rewrite Z.eqb_eq in E; f_equal; lia|reflexivity].
  - replace (zseq rw) with (zseq (Z.of_nat (List.length (nth (Z.to_nat i) src []))))
      by (f_equal; lia).
    apply map_nth_zseq.
Qed.

Lemma nth_fill_region {A} (d : A) (img : list (list A)) (ra rb ca cb rw : Z)
    (src : list (list A)) (i : nat) :
  (i < List.length img)%nat ->
  nth i (fill_region d img ra rb ca cb rw src) [] =
  if (ra <=? Z.of_nat i) && (Z.of_nat i <? rb)
  then splice (nth i img []) ca cb (bcast_row d src (Z.of_nat i - ra) rw)
  else nth i img [].
Proof.
  intros H. unfold fill_region, mapi. rewrite (nth_mapi_from _ _ _ _ []) by exact H.
  reflexivity.
Qed.

(** *** Side-by-side modes *)

(** The two halves [0, w/2) and [w/2, w) of every row exchanged. *)
Definition swap_halves (w : Z) (img : image) : image :=
  map (fun row => skipn (Z.to_nat (w / 2)) row ++ firstn (Z.to_nat (w / 2)) row) img.

(** Two outputs of the transform related by [swap_halves]: both frames,
    the first the second with its halves exchanged, or both raise. *)
Definition halves_swapped (w : Z) (r1 r2 : result image) : Prop :=
  match r1, r2 with
  | Ok a, Ok b => a = swap_halves w b
  | Err _, Err _ => True
  | _, _ => False
  end.

Lemma rotate_app {A} (a b : list A) (n : nat) :
  List.length a = n -> skipn n (a ++ b) ++ firstn n (a ++ b) = b ++ a.
Proof.
  intros H. rewrite skipn_app, firstn_app, H, Nat.sub_diag, skipn_all2, firstn_all2 by lia.
  rewrite skipn_O, firstn_O, app_nil_r. reflexivity.
Qed.

(** Pasting [X1] into the left half and [X2] into the right half of a
    black [h x w] image, against pasting them the other way round. *)
Lemma paste_halves_swap (h w Y nh : Z) (X1 X2 : image) :
  0 <= h -> 0 <= w -> Z.even w = true ->
  halves_swapped w
    (rbind (assign black (zeros black h w) (Some Y) (Some (Y + nh)) None (Some (w / 2)) X1)
       (fun I1 => assign black I1 (Some Y) (Some (Y + nh)) (Some (w / 2)) None X2))
    (rbind (assign black (zeros black h w) (Some Y) (Some (Y + nh)) None (Some (w / 2)) X2)
       (fun I1 => assign black I1 (Some Y) (Some (Y + nh)) (Some (w / 2)) None X1)).
Proof.
  intros Hh Hw Hev.
  apply Z.even_spec in Hev as [m Hm].
  assert (Hk : w / 2 = m) by (rewrite Hm, Z.mul_comm, Z.div_mul; lia).
  rewrite Hk.
  set (Z0 := zeros black h w).
  assert (HW0 : ncols Z0 = 0 /\ Z0 = [] \/ ncols Z0 = w).
  { unfold Z0, zeros, ncols. destruct (Z.to_nat h); cbn; [left; auto|right].
    rewrite repeat_length. lia. }
  assert (Hkk : 0 <= py_norm (ncols Z0) m <= ncols Z0)
    by (apply py_norm_range; destruct HW0 as [[-> _]| ->]; lia).
  assert (Hrw : Z.max 0 (py_norm (ncols Z0) m - 0)
                = Z.max 0 (ncols Z0 - py_norm (ncols Z0) m)).
  { destruct HW0 as [[-> _]| ->].
    - pose proof (py_norm_range 0 m). lia.
    - rewrite py_norm_in by lia. lia. }
  unfold assign, bounds. cbn beta iota zeta.
  rewrite Hrw.
  set (rh := Z.max 0 (py_norm (nrows Z0) (Y + nh) - py_norm (nrows Z0) Y)).
  set (rwv := Z.max 0 (ncols Z0 - py_norm (ncols Z0) m)).
  destruct (broadcasts (nrows X1) rh && broadcasts (ncols X1) rwv) eqn:C1;
  destruct (broadcasts (nrows X2) rh && broadcasts (ncols X2) rwv) eqn:C2; cbn [rbind];
  rewrite ?nrows_fill_region, ?ncols_fill_region by (unfold rwv; lia); fold rh; fold rwv;
  rewrite ?C1, ?C2; cbn [halves_swapped]; try exact I.
  destruct HW0 as [[HW0 ->]|HW0]; [reflexivity|].
  assert (Hkm : py_norm (ncols Z0) m = m) by (rewrite HW0; apply py_norm_in; lia).
  rewrite Hkm in *.
  assert (Hrm : rwv = m) by (unfold rwv; lia).
  rewrite Hrm, HW0.
  unfold fill_region, mapi, swap_halves.
  rewrite !mapi_from_fuse, map_mapi_from.
  apply mapi_from_ext_in. intros i row Hin.
  apply in_zeros in Hin. subst row.
  rewrite Hk.
  set (n := Z.to_nat m).
  assert (Hw2 : Z.to_nat w = (n + n)%nat) by (unfold n; lia).
  assert (Hm' : m = Z.of_nat n) by (unfold n; lia).
  assert (Hw' : w = Z.of_nat (n + n)) by lia.
  destruct ((py_norm (nrows Z0) Y <=? i) && (i <? py_norm (nrows Z0) (Y + nh))).
  - rewrite Hm', Hw', Nat2Z.id.
    rewrite !splice_two_halves;
      rewrite ?length_bcast_row, ?repeat_length; try lia.
    rewrite (rotate_app _ _ n); [reflexivity|].
    rewrite length_bcast_row. lia.
  - rewrite Hw2. symmetry. apply repeat_rotate. lia.
Qed.

Section SideBySide.
Variable resize : image -> Z -> Z -> result image.

(** Claim C5: for every frame of even width and every offset, the
    cross-eye output is the parallel output with the left half (columns
    [0, w/2)) and the right half (columns [w/2, w)) of every row exchanged;
    the two modes raise on the same inputs. *)
Theorem cross_eye_parallel_halves_swapped (frame : image) (offset : Z) :
  Z.even (ncols frame) = true ->
  halves_swapped (ncols frame)
    (process_3d_frame resize "side_by_side_cross_eye" offset frame)
    (process_3d_frame resize "side_by_side_parallel" offset frame).
Proof.
  intros Hev.
  unfold process_3d_frame; cbn [String.eqb Ascii.eqb Bool.eqb andb].
  unfold cross_eye, parallel.
  destruct (new_height_of (nrows frame) (ncols frame) offset) as [nh|e];
    cbn [rbind]; [|exact I].
  destruct (resize (cols frame (Some offset) None) (ncols frame / 2) nh) as [rA|eA];
  destruct (resize (cols frame None (Some (- offset))) (ncols frame / 2) nh) as [rB|eB];
    cbn [rbind halves_swapped].
  1: { apply paste_halves_swap;
         [unfold nrows; lia | unfold ncols; destruct frame; lia | exact Hev]. }
  all: repeat match goal with
         | |- context [rbind (assign ?a ?b ?c ?d ?e ?f ?g) _] =>
             destruct (assign a b c d e f g); cbn [rbind]
         end;
       cbn [halves_swapped]; exact I.
Qed.

End SideBySide.

Section CrossEyeLayout.
Variable resize : image -> Z -> Z -> result image.

(** Claim C4: a 480 x 640 frame at offset 10 in cross-eye mode: both crops
    are 630 columns wide, the resize is asked for width 320 and height
    [int(320 * 480 / 630)] = 243, and when it returns 243 x 320 images [a]
    and [b] the output is 480 x 640 with rows [118, 361) holding [a] beside
    [b], 118 black rows above and 480 - 361 = 119 black rows below. *)
Theorem cross_eye_640x480_offset10_layout (frame a b : image) :
  nrows frame = 480 -> Forall (fun row => List.length row = 640%nat) frame ->
  resize (cols frame (Some 10) None) 320 243 = Ok a ->
  resize (cols frame None (Some (-10))) 320 243 = Ok b ->
  nrows a = 243 -> Forall (fun row => List.length row = 320%nat) a ->
  nrows b = 243 -> Forall (fun row => List.length row = 320%nat) b ->
  ncols (cols frame (Some 10) None) = 630 /\
  ncols (cols frame None (Some (-10))) = 630 /\
  new_height_of 480 640 10 = Ok 243 /\
  exists out,
    process_3d_frame resize "side_by_side_cross_eye" 10 frame = Ok out /\
    List.length out = 480%nat /\
    Forall (fun row => List.length row = 640%nat) out /\
    (forall i, (i < 118)%nat -> nth i out [] = repeat black 640) /\
    (forall i, (118 <= i < 361)%nat ->
       nth i out [] = nth (i - 118) a [] ++ nth (i - 118) b []) /\
    (forall i, (361 <= i < 480)%nat -> nth i out [] = repeat black 640).
Proof.
  intros Hh Hsh Ha Hb Hna Hsa Hnb Hsb.
  assert (Hne : frame <> []) by (intros ->; discriminate Hh).
  assert (Hw : ncols frame = 640) by (apply (ncols_of_shape _ 640 Hne Hsh)).
  assert (Hca : ncols a = 320)
    by (apply (ncols_of_shape _ 320); [intros ->; discriminate Hna|exact Hsa]).
  assert (Hcb : ncols b = 320)
    by (apply (ncols_of_shape _ 320); [intros ->; discriminate Hnb|exact Hsb]).
  assert (Hnh : new_height_of 480 640 10 = Ok 243) by reflexivity.
  destruct frame as [|r0 fr]; [congruence|].
  pose proof (Forall_inv Hsh) as Hr0. cbn beta in Hr0.
  split; [|split; [|split; [exact Hnh|]]].
  { unfold cols, ncols; cbn [map]. unfold py_slice, bounds. rewrite Hr0.
    rewrite length_firstn, length_skipn, Hr0. reflexivity. }
  { unfold cols, ncols; cbn [map]. unfold py_slice, bounds. rewrite Hr0.
    rewrite length_firstn, length_skipn, Hr0. reflexivity. }
  set (frame := r0 :: fr) in *.
  unfold process_3d_frame; cbn [String.eqb Ascii.eqb Bool.eqb andb].
  unfold cross_eye. rewrite Hh, Hw, Hnh. cbn [rbind].
  replace (640 / 2) with 320 by reflexivity.
  rewrite Ha. cbn [rbind].
  replace ((480 - 243) / 2) with 118 by reflexivity.
  replace (118 + 243) with 361 by reflexivity.
  pose proof (nth_zeros black 480 640) as HZn.
  assert (HZl : List.length (zeros black 480 640) = 480%nat)
    by (unfold zeros; apply repeat_length).
  assert (HZr : nrows (zeros black 480 640) = 480) by (apply nrows_zeros; lia).
  assert (HZc : ncols (zeros black 480 640) = 640) by (apply ncols_zeros; lia).
  set (Z0 := zeros black 480 640) in *. clearbody Z0.
  unfold assign at 1, bounds. rewrite HZr, HZc, Hna, Hca.
  replace (py_norm 480 118) with 118 by reflexivity.
  replace (py_norm 480 361) with 361 by reflexivity.
  replace (py_norm 640 320) with 320 by reflexivity.
  replace (broadcasts 243 (Z.max 0 (361 - 118)) && broadcasts 320 (Z.max 0 (320 - 0)))
    with true by reflexivity.
  replace (Z.max 0 (320 - 0)) with 320 by reflexivity.
  cbn [rbind]. cbn [Z.opp]. rewrite Hb. cbn [rbind].
  set (Z1 := fill_region black Z0 118 361 0 320 320 a).
  assert (HZ1r : nrows Z1 = 480) by (unfold Z1; rewrite nrows_fill_region; exact HZr).
  assert (HZ1c : ncols Z1 = 640)
    by (unfold Z1; rewrite ncols_fill_region; [exact HZc|lia|lia|reflexivity]).
  assert (HZ1l : List.length Z1 = 480%nat) by (unfold nrows in HZ1r; lia).
  unfold assign, bounds. rewrite HZ1r, HZ1c, Hnb, Hcb.
  replace (py_norm 480 118) with 118 by reflexivity.
  replace (py_norm 480 361) with 361 by reflexivity.
  replace (py_norm 640 320) with 320 by reflexivity.
  replace (broadcasts 243 (Z.max 0 (361 - 118)) && broadcasts 320 (Z.max 0 (640 - 320)))
    with true by reflexivity.
  replace (Z.max 0 (640 - 320)) with 320 by reflexivity.
  set (out := fill_region black Z1 118 361 320 640 320 b).
  assert (Hnth : forall k (r : list (list px)), (k < 243)%nat ->
            nrows r = 243 -> Forall (fun row => List.length row = 320%nat) r ->
            List.length (nth k r []) = 320%nat).
  { intros k r Hk Hn Hs. rewrite Forall_forall in Hs. apply Hs, nth_In.
    unfold nrows in Hn. lia. }
  assert (Hrow : forall i, (i < 480)%nat ->
            nth i out [] =
            if (118 <=? Z.of_nat i) && (Z.of_nat i <? 361)
            then nth (i - 118) a [] ++ nth (i - 118) b []
            else repeat black 640).
  { intros i Hi. unfold out. rewrite nth_fill_region by lia.
    unfold Z1. rewrite nth_fill_region by lia. rewrite HZn by lia.
    destruct ((118 <=? Z.of_nat i) && (Z.of_nat i <? 361)) eqn:E; [|reflexivity].
    apply andb_true_iff in E as [E1 E2]. rewrite Z.leb_le in E1. rewrite Z.ltb_lt in E2.
    rewrite !bcast_row_exact by (first [exact Hsa | exact Hsb | lia]).
    replace (Z.to_nat (Z.of_nat i - 118)) with (i - 118)%nat by lia.
    apply (splice_two_halves _ _ _ 320%nat).
    - apply repeat_length.
    - apply Hnth; [lia|exact Hna|exact Hsa].
    - apply Hnth; [lia|exact Hnb|exact Hsb]. }
  assert (Hlen : List.length out = 480%nat)
    by (unfold out, fill_region, mapi; rewrite length_mapi_from; exact HZ1l).
  exists out. split; [reflexivity|]. split; [exact Hlen|]. split.
  { apply Forall_nth. intros i d Hi. rewrite Hlen in Hi.
    rewrite (nth_indep _ d []) by lia. rewrite Hrow by exact Hi.
    destruct ((118 <=? Z.of_nat i) && (Z.of_nat i <? 361)) eqn:E.
    - apply andb_true_iff in E as [E1 E2]. rewrite Z.leb_le in E1. rewrite Z.ltb_lt in E2.
      rewrite length_app, !Hnth; first [lia | exact Hna | exact Hsa | exact Hnb | exact Hsb].
    - apply repeat_length. }
  split; [|split].
  - intros i Hi. rewrite Hrow by lia.
    replace (118 <=? Z.of_nat i) with false by lia. reflexivity.
  - intros i Hi. rewrite Hrow by lia.
    replace ((118 <=? Z.of_nat i) && (Z.of_nat i <? 361)) with true by lia. reflexivity.
  - intros i Hi. rewrite Hrow by lia.
    replace (Z.of_nat i <? 361) with false by lia. rewrite andb_false_r. reflexivity.
Qed.

End CrossEyeLayout.

Section Anaglyph.
Variable resize : image -> Z -> Z -> result image.

(** Claim C6: for every frame and every offset, the green-magenta output
    is the red-cyan output with red and green swapped in every pixel (blue
    untouched); both raise together, with the same error. *)
Theorem anaglyph_green_magenta_swaps_red_cyan (frame : image) (offset : Z) :
  process_3d_frame resize "anaglyph_green_magenta" offset frame
  = match process_3d_frame resize "anaglyph_red_cyan" offset frame with
    | Ok out => Ok (map (map swap_rg) out)
    | Err e => Err e
    end.
Proof.
  unfold process_3d_frame; cbn [String.eqb Ascii.eqb Bool.eqb andb].
  unfold anaglyph.
  destruct (cvt_gray frame) as [g|e]; cbn [rbind]; [|reflexivity].
  unfold assign_channel.
  rewrite ?nrows_fill_channel, ?ncols_fill_channel.
  destruct (broadcasts (nrows g) (nrows (zeros black (nrows frame) (ncols frame))) &&
            broadcasts (ncols g) (ncols (zeros black (nrows frame) (ncols frame)))) eqn:C1;
    cbn [rbind]; [|reflexivity].
  destruct (shift_right g offset) as [sh|e]; cbn [rbind]; [|reflexivity].
  rewrite ?nrows_fill_channel, ?ncols_fill_channel.
  destruct (broadcasts (nrows sh) (nrows (zeros black (nrows frame) (ncols frame))) &&
            broadcasts (ncols sh) (ncols (zeros black (nrows frame) (ncols frame)))) eqn:C2;
    cbn [rbind]; [|reflexivity].
  rewrite ?nrows_fill_channel, ?ncols_fill_channel, C2.
  f_equal. unfold fill_channel, mapi.
  rewrite !mapi_from_fuse, map_mapi_from.
  apply mapi_from_ext_in. intros i row _.
  rewrite !mapi_from_fuse, map_mapi_from.
  apply mapi_from_ext_in. intros j [[r gg] b] _.
  reflexivity.
Qed.

End Anaglyph.

Section AnaglyphShift.
Variable resize : image -> Z -> Z -> result image.

(** The luminance of pixel [(i, j)] of [frame]. *)
Definition gray_at (frame : image) (i j : nat) : Z :=
  gray_px (nth j (nth i frame []) black).

(** Claim C3: the offset is not checked. For every non-empty frame of
    width [w > 0] and every offset [o >= 0] (so also 5 or 150), the
    red-cyan transform returns a frame of the input's shape whose red
    channel is the luminance and whose green and blue channels hold the
    luminance shifted right by exactly [o] columns, the first [o] columns
    being 0: the offset is used as given, never clamped. *)
Theorem anaglyph_red_cyan_offset_unchecked (frame : image) (w o : Z) :
  frame <> [] -> 0 < w -> Forall (fun row => List.length row = Z.to_nat w) frame ->
  0 <= o ->
  exists out,
    process_3d_frame resize "anaglyph_red_cyan" o frame = Ok out /\
    List.length out = List.length frame /\
    Forall (fun row => List.length row = Z.to_nat w) out /\
    forall i j, (i < List.length frame)%nat -> (j < Z.to_nat w)%nat ->
      nth j (nth i out []) black =
      (gray_at frame i j,
       if (j <? Z.to_nat o)%nat then 0 else gray_at frame i (j - Z.to_nat o),
       if (j <? Z.to_nat o)%nat then 0 else gray_at frame i (j - Z.to_nat o)).
Proof.
  intros Hne Hw Hsh Ho.
  set (h := List.length frame).
  assert (Hh : (0 < h)%nat) by (destruct frame; [congruence|cbn; lia]).
  assert (Hfr : nrows frame = Z.of_nat h) by reflexivity.
  assert (Hfc : ncols frame = w)
    by (rewrite (ncols_of_shape _ _ Hne Hsh); lia).
  set (g := map (map gray_px) frame).
  assert (Hgl : List.length g = h) by (apply length_map).
  assert (Hgsh : Forall (fun row => List.length row = Z.to_nat w) g).
  { apply Forall_map. eapply Forall_impl; [|exact Hsh].
    intros r Hr. cbn beta. rewrite length_map. exact Hr. }
  assert (Hgne : g <> []) by (intros E; apply (f_equal (@List.length _)) in E; cbn in E; lia).
  assert (Hgr : nrows g = Z.of_nat h) by (unfold nrows; rewrite Hgl; reflexivity).
  assert (Hgc : ncols g = w) by (rewrite (ncols_of_shape _ _ Hgne Hgsh); lia).
  assert (Hgij : forall i j, (i < h)%nat -> (j < Z.to_nat w)%nat ->
            nth j (nth i g []) 0 = gray_at frame i j).
  { intros i j Hi Hj. unfold g, gray_at.
    rewrite (nth_indep _ [] (map gray_px [])) by (rewrite length_map; lia).
    rewrite map_nth.
    rewrite (nth_indep _ 0 (gray_px black)).
    - apply map_nth.
    - rewrite length_map. rewrite Forall_forall in Hsh. rewrite Hsh by (apply nth_In; lia).
      exact Hj. }
  unfold process_3d_frame; cbn [String.eqb Ascii.eqb Bool.eqb andb].
  unfold anaglyph.
  assert (Hcvt : cvt_gray frame = Ok g).
  { unfold cvt_gray. rewrite Hfr, Hfc.
    replace (Z.of_nat h =? 0) with false by lia.
    replace (w =? 0) with false by lia. reflexivity. }
  rewrite Hcvt, Hfr, Hfc. cbn [rbind].
  (* the black canvas and the luminance written into channel 0 *)
  set (Z0 := zeros black (Z.of_nat h) w).
  assert (HZr : nrows Z0 = Z.of_nat h) by (apply nrows_zeros; lia).
  assert (HZc : ncols Z0 = w) by (unfold Z0; rewrite ncols_zeros; lia).
  assert (HZl : List.length Z0 = h) by (unfold Z0, zeros; rewrite repeat_length; lia).
  assert (HZsh : Forall (fun row => List.length row = Z.to_nat w) Z0) by apply Forall_zeros.
  assert (HZij : forall i j, (i < h)%nat -> (j < Z.to_nat w)%nat ->
            nth j (nth i Z0 []) black = black).
  { intros i j Hi Hj. unfold Z0. rewrite nth_zeros by lia. apply nth_repeat. }
  unfold assign_channel at 1. rewrite HZr, HZc, Hgr, Hgc.
  unfold broadcasts at 1 2. rewrite !Z.eqb_refl. cbn [orb andb rbind].
  set (A1 := fill_channel Z0 0 g).
  (* the shifted copy *)
  set (src := if o >? 0 then cols g None (Some (- o)) else g).
  set (m := Z.min o w).
  assert (Hsl : List.length src = h).
  { unfold src. destruct (o >? 0); [unfold cols; rewrite length_map|]; exact Hgl. }
  assert (Hsrow : forall i, (i < h)%nat ->
            nth i src [] = firstn (Z.to_nat (w - m)) (nth i g [])).
  { intros i Hi.
    assert (Hgi : List.length (nth i g []) = Z.to_nat w)
      by (rewrite Forall_forall in Hgsh; apply Hgsh, nth_In; lia).
    unfold src. destruct (o >? 0) eqn:E.
    - apply Z.gtb_lt in E. unfold cols.
      rewrite (nth_indep _ [] (py_slice [] None (Some (- o))))
        by (rewrite length_map; lia).
      rewrite (map_nth (fun row => py_slice row None (Some (- o)))).
      unfold py_slice, bounds. rewrite Hgi.
      unfold py_norm. replace (- o <? 0) with true by lia.
      cbn [skipn Z.to_nat]. f_equal. unfold m. lia.
    - rewrite Z.gtb_ltb in E. apply Z.ltb_ge in E.
      replace (w - m) with w by (unfold m; lia).
      rewrite firstn_all2 by lia. reflexivity. }
  assert (Hssh : Forall (fun row => List.length row = Z.to_nat (w - m)) src).
  { apply Forall_nth. intros i d Hi. rewrite Hsl in Hi.
    rewrite (nth_indep _ d []) by lia. rewrite Hsrow by exact Hi.
    rewrite length_firstn.
    assert (List.length (nth i g []) = Z.to_nat w)
      by (rewrite Forall_forall in Hgsh; apply Hgsh, nth_In; lia).
    unfold m. lia. }
  assert (Hsne : src <> []) by (intros E; rewrite E in Hsl; cbn in Hsl; lia).
  assert (Hsr : nrows src = Z.of_nat h) by (unfold nrows; rewrite Hsl; reflexivity).
  assert (Hsc : ncols src = w - m) by (rewrite (ncols_of_shape _ _ Hsne Hssh); unfold m; lia).
  assert (Hshift : shift_right g o =
            Ok (fill_region 0 (zeros 0 (Z.of_nat h) w) 0 (Z.of_nat h) m w (w - m) src)).
  { unfold shift_right. fold src. rewrite Hgr, Hgc. unfold assign, bounds.
    rewrite nrows_zeros, ncols_zeros by lia.
    replace (Z.max 0 w) with w by lia.
    rewrite py_norm_nonneg by exact Ho. change (Z.min o w) with m.
    replace (Z.max 0 (Z.of_nat h - 0)) with (Z.of_nat h) by lia.
    replace (Z.max 0 (w - m)) with (w - m) by (unfold m; lia).
    unfold broadcasts. rewrite Hsr, Hsc, !Z.eqb_refl. reflexivity. }
  rewrite Hshift. cbn [rbind].
  set (S := fill_region 0 (zeros 0 (Z.of_nat h) w) 0 (Z.of_nat h) m w (w - m) src).
  assert (HSl : List.length S = h)
    by (unfold S, fill_region, mapi, zeros; rewrite length_mapi_from, repeat_length; lia).
  assert (HSsh : Forall (fun row => List.length row = Z.to_nat w) S).
  { unfold S, fill_region, mapi. apply (Forall_mapi_from _ _ _ _ _ (Forall_zeros 0 _ w)).
    intros k r Hr. destruct (_ && _); [|exact Hr].
    rewrite length_splice; [exact Hr|lia|lia|].
    rewrite length_bcast_row. unfold m. lia. }
  assert (HSne : S <> []) by (intros E; rewrite E in HSl; cbn in HSl; lia).
  assert (HSr : nrows S = Z.of_nat h) by (unfold nrows; rewrite HSl; reflexivity).
  assert (HSc : ncols S = w) by (rewrite (ncols_of_shape _ _ HSne HSsh); lia).
  assert (HSij : forall i j, (i < h)%nat -> (j < Z.to_nat w)%nat ->
            nth j (nth i S []) 0 =
            if (j <? Z.to_nat o)%nat then 0 else gray_at frame i (j - Z.to_nat o)).
  { intros i j Hi Hj. unfold S.
    rewrite nth_fill_region by (unfold zeros; rewrite repeat_length; lia).
    replace ((0 <=? Z.of_nat i) && (Z.of_nat i <? Z.of_nat h)) with true by lia.
    rewrite nth_zeros by lia.
    rewrite bcast_row_exact; [|rewrite Hsr; lia|rewrite Hsr; lia|unfold m; lia|exact Hssh].
    replace (Z.to_nat (Z.of_nat i - 0)) with i by lia.
    rewrite nth_splice_to_end; [|unfold m; lia|rewrite repeat_length; reflexivity|].
    2: { rewrite Hsrow by exact Hi. rewrite length_firstn.
         assert (List.length (nth i g []) = Z.to_nat w)
           by (rewrite Forall_forall in Hgsh; apply Hgsh, nth_In; lia).
         unfold m. lia. }
    destruct (Nat.ltb_spec j (Z.to_nat m)) as [E1|E1];
      destruct (Nat.ltb_spec j (Z.to_nat o)) as [E2|E2]; unfold m in E1; try lia.
    - apply nth_repeat.
    - rewrite Hsrow by exact Hi. rewrite nth_firstn.
      replace (j - Z.to_nat m <? Z.to_nat (w - m))%nat with true
        by (symmetry; apply Nat.ltb_lt; unfold m; lia).
      replace (Z.to_nat m) with (Z.to_nat o) by (unfold m; lia).
      apply Hgij; lia. }
  assert (HA1r : nrows A1 = Z.of_nat h) by (unfold A1; rewrite nrows_fill_channel; exact HZr).
  assert (HA1c : ncols A1 = w) by (unfold A1; rewrite ncols_fill_channel; exact HZc).
  unfold assign_channel at 1. rewrite HA1r, HA1c, HSr, HSc.
  unfold broadcasts at 1 2. rewrite !Z.eqb_refl. cbn [orb andb rbind].
  set (A2 := fill_channel A1 1 S).
  assert (HA2r : nrows A2 = Z.of_nat h) by (unfold A2; rewrite nrows_fill_channel; exact HA1r).
  assert (HA2c : ncols A2 = w) by (unfold A2; rewrite ncols_fill_channel; exact HA1c).
  unfold assign_channel. rewrite HA2r, HA2c, HSr, HSc.
  unfold broadcasts. rewrite !Z.eqb_refl. cbn [orb andb].
  assert (HA1sh : Forall (fun row => List.length row = Z.to_nat w) A1)
    by (apply Forall_fill_channel; exact HZsh).
  assert (HA2sh : Forall (fun row => List.length row = Z.to_nat w) A2)
    by (apply Forall_fill_channel; exact HA1sh).
  assert (HA1l : List.length A1 = h)
    by (unfold A1, fill_channel, mapi; rewrite length_mapi_from; exact HZl).
  assert (HA2l : List.length A2 = h)
    by (unfold A2, fill_channel, mapi; rewrite length_mapi_from; exact HA1l).
  exists (fill_channel A2 2 S). split; [reflexivity|]. split; [|split].
  - unfold fill_channel, mapi. rewrite length_mapi_from. exact HA2l.
  - apply Forall_fill_channel. exact HA2sh.
  - intros i j Hi Hj.
    rewrite (nth_fill_channel _ _ _ (Z.to_nat w)) by (first [assumption | lia]).
    unfold A2. rewrite (nth_fill_channel _ _ _ (Z.to_nat w)) by (first [assumption | lia]).
    unfold A1. rewrite (nth_fill_channel _ _ _ (Z.to_nat w)) by (first [assumption | lia]).
    rewrite HZij, Hgij, HSij by lia. reflexivity.
Qed.

End AnaglyphShift.

(** *** Concrete runs *)

(** A nearest-neighbour stand-in for [cv2.resize], to run the transform on
    concrete frames; like OpenCV it raises on an empty source or a
    non-positive target size. *)
Definition resize_nn (src : image) (width height : Z) : result image :=
  if (width <=? 0) || (height <=? 0) || (nrows src =? 0) || (ncols src =? 0)
  then Err Cv2Error
  else Ok (map (fun i =>
                  let row := nth (Z.to_nat (i * nrows src / height)) src [] in
                  map (fun j => nth (Z.to_nat (j * ncols src / width)) row black)
                      (zseq width))
               (zseq height)).

(** A 4 x 8 frame whose pixel [(i, j)] is [(i, j, 7)]. *)
Definition frame_demo : image :=
  map (fun i => map (fun j => (i, j, 7)) (zseq 8)) (zseq 4).

Definition white_480x640 : image := zeros (255, 255, 255) 480 640.

Definition is_black (p : px) : bool :=
  let '(r, g, b) := p in (r =? 0) && (g =? 0) && (b =? 0).

(** The number of all-black rows at the top of an image. *)
Fixpoint black_rows_above (img : image) : nat :=
  match img with
  | [] => O
  | row :: img' => if forallb is_black row then S (black_rows_above img') else O
  end.

Definition black_rows_below (img : image) : nat := black_rows_above (rev img).

(** A stand-in for [cv2.resize] that keeps only the shape of its result:
    a white image of the requested size, or the error OpenCV raises. *)
Definition resize_shape (src : image) (width height : Z) : result image :=
  if (width <=? 0) || (height <=? 0) || (nrows src =? 0) || (ncols src =? 0)
  then Err Cv2Error
  else Ok (zeros (255, 255, 255) height width).

Lemma Forall_length_forallb {A} (l : list (list A)) (n : nat) :
  forallb (fun row => Nat.eqb (List.length row) n) l = true ->
  Forall (fun row => List.length row = n) l.
Proof.
  intros H. apply Forall_forall. intros r Hr.
  rewrite forallb_forall in H. apply Nat.eqb_eq, H, Hr.
Qed.

(** C3: offsets 5 and 150 are outside [10, 100]; both runs return a frame. *)
Lemma anaglyph_offsets_5_and_150_accepted :
  (exists out, process_3d_frame resize_nn "anaglyph_red_cyan" 5 frame_demo = Ok out) /\
  (exists out, process_3d_frame resize_nn "anaglyph_red_cyan" 150 frame_demo = Ok out).
Proof. split; eexists; vm_compute; reflexivity. Qed.

Lemma anaglyph_red_cyan_offset_unchecked_witness :
  frame_demo <> [] /\ 0 < 8 /\
  Forall (fun row => List.length row = Z.to_nat 8) frame_demo /\ 0 <= 5 /\
  exists out,
    process_3d_frame resize_nn "anaglyph_red_cyan" 5 frame_demo = Ok out /\
    nth 6 (nth 2 out []) black = (gray_at frame_demo 2 6, gray_at frame_demo 2 1,
                                  gray_at frame_demo 2 1).
Proof.
  assert (Hsh : Forall (fun row => List.length row = Z.to_nat 8) frame_demo)
    by (apply Forall_length_forallb; vm_compute; reflexivity).
  split; [discriminate|]. split; [lia|]. split; [exact Hsh|]. split; [lia|].
  destruct (anaglyph_red_cyan_offset_unchecked resize_nn frame_demo 8 5
              ltac:(discriminate) ltac:(lia) Hsh ltac:(lia))
    as (out & Hout & _ & _ & Hcell).
  exists out. split; [exact Hout|].
  rewrite Hcell by (vm_compute; lia). reflexivity.
Defined.

(** C4: on a white 480 x 640 frame the cross-eye output at offset 10 has
    118 black rows above the content and 119 below. *)
Lemma cross_eye_640x480_margins_118_119 :
  new_height_of 480 640 10 = Ok 243 /\
  match process_3d_frame resize_shape "side_by_side_cross_eye" 10 white_480x640 with
  | Ok out => (List.length out, black_rows_above out, black_rows_below out)
  | Err _ => (O, O, O)
  end = (480%nat, 118%nat, 119%nat).
Proof. split; vm_compute; reflexivity. Qed.

Lemma cross_eye_640x480_offset10_layout_witness :
  nrows white_480x640 = 480 /\
  resize_shape (cols white_480x640 (Some 10) None) 320 243
    = Ok (zeros (255, 255, 255) 243 320) /\
  exists out,
    process_3d_frame resize_shape "side_by_side_cross_eye" 10 white_480x640 = Ok out /\
    nth 117 out [] = repeat black 640 /\ nth 361 out [] = repeat black 640.
Proof.
  assert (Hl : resize_shape (cols white_480x640 (Some 10) None) 320 243
               = Ok (zeros (255, 255, 255) 243 320)) by reflexivity.
  assert (Hr : resize_shape (cols white_480x640 None (Some (-10))) 320 243
               = Ok (zeros (255, 255, 255) 243 320)) by reflexivity.
  split; [reflexivity|]. split; [exact Hl|].
  destruct (cross_eye_640x480_offset10_layout resize_shape white_480x640
              (zeros (255, 255, 255) 243 320) (zeros (255, 255, 255) 243 320)
              ltac:(reflexivity) (Forall_zeros _ 480 640) Hl Hr
              ltac:(reflexivity) (Forall_zeros _ 243 320)
              ltac:(reflexivity) (Forall_zeros _ 243 320))
    as (_ & _ & _ & out & Hout & _ & _ & Htop & _ & Hbot).
  exists out. split; [exact Hout|]. split; [apply Htop; lia|apply Hbot; lia].
Defined.

Lemma cross_eye_parallel_halves_swapped_witness :
  Z.even (ncols frame_demo) = true /\
  halves_swapped (ncols frame_demo)
    (process_3d_frame resize_nn "side_by_side_cross_eye" 3 frame_demo)
    (process_3d_frame resize_nn "side_by_side_parallel" 3 frame_demo).
Proof.
  split; [reflexivity|].
  apply cross_eye_parallel_halves_swapped. reflexivity.
Defined.

End ReceiverFacts.

(** ** Receiver: the [VideoReceiver] application around the transform *)
Module ReceiverApp.
Import Receiver.

(** *** Strings *)

(** [s.replace(old, new)] for a non-empty [old]: every occurrence, left to
    right, without overlaps. [fuel] bounds the characters still to scan. *)
Fixpoint replace_fuel (fuel : nat) (old new s : string) : string :=
  match fuel with
  | O => s
  | S f =>
    match s with
    | EmptyString => EmptyString
    | String c s' =>
      if String.prefix old s
      then new ++ replace_fuel f old new
                    (substring (String.length old) (String.length s - String.length old) s)
      else String c (replace_fuel f old new s')
    end
  end%string.

Definition py_replace (s old new : string) : string :=
  replace_fuel (String.length s) old new s.

(** [old in s] *)
Fixpoint occurs (old s : string) : bool :=
  String.prefix old s ||
  match s with
  | EmptyString => false
  | String _ s' => occurs old s'
  end.

(** [_connect_async]: [uri = url.replace("ws://", "http://").replace("wss://", "https://")]
    and [offer_url = f"{uri}/offer"]. *)
Definition offer_url (url : string) : string :=
  (py_replace (py_replace url "ws://" "http://") "wss://" "https://" ++ "/offer")%string.

(** Decimal digits of [n >= 0], prepended to [acc]. *)
Fixpoint digits_fuel (fuel : nat) (n : Z) (acc : string) : string :=
  match fuel with
  | O => acc
  | S f =>
    let acc' := String (Ascii.ascii_of_nat (48 + Z.to_nat (n mod 10))) acc in
    if n / 10 =? 0 then acc' else digits_fuel f (n / 10) acc'
  end.

(** [str(n)] for a Python [int]. *)
Definition py_str_int (z : Z) : string :=
  if z <? 0 then ("-" ++ digits_fuel (S (Z.to_nat (Z.log2 (- z)))) (- z) "")%string
  else digits_fuel (S (Z.to_nat (Z.log2 z))) z "".

(** *** Window state *)

(** The receiver's fields: the Tk variables and button states, [self.pc]
    (numbered handles from the engine, with the next one and the
    [pc.close()] calls scheduled so far), [self.is_playing],
    [self.current_frame] and the images drawn on the canvas. *)
Record ui := mkUI {
  status_text : string;
  status_color : string;
  connect_enabled : bool;
  disconnect_enabled : bool;
  info_text : string;
  rpc : option nat;
  next_pc : nat;
  closes : list nat;
  is_playing : bool;
  current_frame : option image;
  canvas : list (Z * Z * image)
}.

(** The state after [__init__] and [setup_ui]. *)
Definition ui_init : ui :=
  mkUI "Disconnected" "red" true false "Ready to connect" None 0 [] false None [].

(** [f"{error_msg}"] for [error_msg=None] or a string. *)
Definition py_str_opt (m : option string) : string :=
  match m with Some s => s | None => "None" end.

(** [_update_connection_status] *)
Definition update_connection_status (connected : bool) (error_msg : option string)
    (u : ui) : ui :=
  if connected then
    mkUI "Connected" "green" false true "Receiving video stream..."
      (rpc u) (next_pc u) (closes u) (is_playing u) (current_frame u) (canvas u)
  else
    mkUI ("Connection failed: " ++ py_str_opt error_msg)%string "red" true false
      "Connection failed"
      (rpc u) (next_pc u) (closes u) (is_playing u) (current_frame u) (canvas u).

(** [disconnect]: [pc.close()] is scheduled only when there is a [self.pc]. *)
Definition disconnect (u : ui) : ui :=
  let closes' := match rpc u with Some h => app (closes u) [h] | None => closes u end in
  mkUI "Disconnected" "red" true false "Ready to connect" None (next_pc u) closes' false None [].

(** What [session.post(offer_url, json=...)] returns: the status, and what
    [response.json()] gives (a decoded object, or the message it raises). *)
Record reply := mkReply {
  reply_status : Z;
  reply_json : string + list (string * string)
}.

(** The start of [_connect_async]: "Connecting...", the Connect button
    disabled, and [self.pc = RTCPeerConnection()] (the previous one is
    overwritten, not closed). *)
Definition connecting (u : ui) : ui :=
  mkUI "Connecting..." (status_color u) false (disconnect_enabled u) (info_text u)
    (Some (next_pc u)) (S (next_pc u)) (closes u) (is_playing u) (current_frame u) (canvas u).

Section Connect.

(** [createOffer()] and [setLocalDescription(offer)] on connection [h]: the
    local description's [(sdp, type)], or the message of the exception. *)
Variable local_description : nat -> string + (string * string).

(** [session.post(url, json=body)]: the reply, or the message of the
    exception (connection refused, ...). *)
Variable post : string -> list (string * string) -> string + reply.

(** [setRemoteDescription(RTCSessionDescription(sdp, type))] on [h]:
    [Some msg] when it raises. *)
Variable set_remote : nat -> string -> string -> option string.

(** [_connect_async], from its start to the [root.after(0, ...)] callback
    that reports the outcome: the window state once the reply has been
    handled. The [except] reports [str(e)] through
    [_update_connection_status]. The state shown while the attempt awaits
    the engine and the publisher is [connecting u]; [run_ui_states] lists
    it. *)
Definition connect_async (url : string) (u : ui) : ui :=
  let h := next_pc u in
  let u1 := connecting u in
  let fail msg := update_connection_status false (Some msg) u1 in
  match local_description h with
  | inl msg => fail msg
  | inr (sdp, typ) =>
    match post (offer_url url) [("sdp", sdp); ("type", typ)]%string with
    | inl msg => fail msg
    | inr rep =>
      if reply_status rep =? 200 then
        match reply_json rep with
        | inl msg => fail msg
        | inr answer_data =>
          match Signaling.lookup "sdp" answer_data with
          | None => fail "'sdp'"%string
          | Some a_sdp =>
            match Signaling.lookup "type" answer_data with
            | None => fail "'type'"%string
            | Some a_type =>
              match set_remote h a_sdp a_type with
              | Some msg => fail msg
              | None => update_connection_status true None u1
              end
            end
          end
        end
      else fail ("Failed to connect: " ++ py_str_int (reply_status rep))%string
    end
  end.

(** [connect_to_publisher]: an empty URL only shows a message box. *)
Definition connect_to_publisher (url : string) (u : ui) : ui :=
  if String.eqb url "" then u else connect_async url u.

(** The buttons: Connect (with the URL typed) and Disconnect. *)
Inductive ui_op :=
| OpConnect (url : string)
| OpDisconnect.

(** The window after a sequence of presses, each one handled to its end
    (an attempt's reply included) before the next. *)
Fixpoint run_ui (ops : list ui_op) (u : ui) : ui :=
  match ops with
  | [] => u
  | OpConnect url :: ops' => run_ui ops' (connect_to_publisher url u)
  | OpDisconnect :: ops' => run_ui ops' (disconnect u)
  end.

(** Every state the window shows along [run_ui]: the state before each
    press, the state [connecting u] while a connection attempt awaits its
    reply, and the final state. *)
Fixpoint run_ui_states (ops : list ui_op) (u : ui) : list ui :=
  match ops with
  | [] => [u]
  | OpConnect url :: ops' =>
      u :: (if String.eqb url "" then [] else [connecting u])
        ++ run_ui_states ops' (connect_to_publisher url u)
  | OpDisconnect :: ops' => u :: run_ui_states ops' (disconnect u)
  end.

End Connect.

(** *** Playing the track *)

Section Display.

(** [cv2.resize] *)
Variable resize : image -> Z -> Z -> result image.

(** [_update_video_display] for a canvas of [cw x ch] pixels; an exception
    is logged and leaves the window as it was. *)
Definition update_video_display (cw ch : Z) (frame : image) (u : ui) : ui :=
  let height := nrows frame in
  let width := ncols frame in
  if (1 <? cw) && (1 <? ch) then
    match py_truediv (inject_Z width) (inject_Z height) with
    | Err _ => u
    | Ok frame_aspect =>
      match py_truediv (inject_Z cw) (inject_Z ch) with
      | Err _ => u
      | Ok canvas_aspect =>
        let dims :=
          if Qlt_le_dec canvas_aspect frame_aspect
          then match py_truediv (inject_Z cw) frame_aspect with
               | Ok q => Ok (cw, py_int q)
               | Err e => Err e
               end
          else Ok (py_int (inject_Z ch * frame_aspect), ch) in
        match dims with
        | Err _ => u
        | Ok (new_width, new_height) =>
          match resize frame new_width new_height with
          | Err _ => u
          | Ok frame_resized =>
            mkUI (status_text u) (status_color u) (connect_enabled u) (disconnect_enabled u)
              (info_text u) (rpc u) (next_pc u) (closes u) (is_playing u)
              (Some frame_resized)
              [((cw - new_width) / 2, (ch - new_height) / 2, frame_resized)]
          end
        end
      end
    end
  else u.

Definition set_playing (b : bool) (u : ui) : ui :=
  mkUI (status_text u) (status_color u) (connect_enabled u) (disconnect_enabled u)
    (info_text u) (rpc u) (next_pc u) (closes u) b (current_frame u) (canvas u).

(** One turn of the loop fails when [track.recv()] raises or the frame's
    processing does. *)
Definition frame_fails (mode : string) (offset : Z) (f : result image) : bool :=
  match rbind f (fun img => process_3d_frame resize mode offset img) with
  | Err _ => true
  | Ok _ => false
  end.

(** The [while self.is_playing] loop of [handle_video_track] over the
    results of successive [track.recv()] calls; when they run out the loop
    is still waiting in [recv]. *)
Fixpoint track_loop (mode : string) (offset cw ch : Z) (frames : list (result image))
    (u : ui) : ui :=
  match frames with
  | [] => u
  | f :: fs =>
    match rbind f (fun img => process_3d_frame resize mode offset img) with
    | Err _ => set_playing false u
    | Ok processed_img => track_loop mode offset cw ch fs (update_video_display cw ch processed_img u)
    end
  end.

(** [handle_video_track] *)
Definition handle_video_track (mode : string) (offset cw ch : Z)
    (frames : list (result image)) (u : ui) : ui :=
  track_loop mode offset cw ch frames (set_playing true u).

End Display.

(** *** The publisher behind [session.post] *)

(** The publisher's [/offer] handler answering the receiver's POST:
    [response.json()] decodes a JSON body; on a plain-text body aiohttp
    raises its [ContentTypeError]. *)
Definition publisher_post (video : Publisher.asset) (description_error : string -> option string)
    (negotiate : string -> string -> string + string) (st : Signaling.pstate)
    : string -> list (string * string) -> string + reply :=
  fun _ body =>
    let resp := fst (Signaling.offer_handler video description_error negotiate st
                       (Signaling.ReqJson body)) in
    inr (mkReply (Signaling.status resp)
           match Signaling.resp_body resp with
           | Signaling.JsonBody fields => inr fields
           | Signaling.TextBody _ => inl "Attempt to decode JSON with unexpected mimetype: text/plain"%string
           end).

(** *** Facts *)

Lemma replace_fuel_absent (n : nat) (old new s : string) :
  occurs old s = false -> replace_fuel n old new s = s.
Proof.
  revert s; induction n as [|n IH]; intros s H; [reflexivity|].
  destruct s as [|c s']; [reflexivity|].
  cbn [occurs] in H. apply orb_false_elim in H as [H1 H2].
  cbn [replace_fuel]. rewrite H1. f_equal. apply IH. exact H2.
Qed.

Lemma substring_0_length (s : string) : substring 0 (String.length s) s = s.
Proof. induction s as [|c s IH]; cbn; [reflexivity|]. rewrite IH. reflexivity. Qed.

Lemma prefix_app_self (a r : string) : String.prefix a (a ++ r) = true.
Proof.
  induction a as [|c a IH]; cbn; [destruct r; reflexivity|].
  destruct (Ascii.ascii_dec c c) as [_|n]; [exact IH| contradiction].
Qed.
Lemma length_append (a r : string) : String.length (a ++ r) = (String.length a + String.length r)%nat.
Proof. induction a as [|c a IH]; cbn; [reflexivity|]. rewrite IH. reflexivity. Qed.
Lemma substring_after (a r : string) :
  substring (String.length a) (String.length (a ++ r) - String.length a) (a ++ r) = r.
Proof.
  rewrite length_append. replace (String.length a + String.length r - String.length a)%nat
    with (String.length r) by lia.
  induction a as [|c a IH]; cbn [String.length String.append substring]; [apply substring_0_length| exact IH].
Qed.
Lemma replace_fuel_hit (n : nat) (c : Ascii.ascii) (old' new r : string) :
  replace_fuel (S n) (String c old') new (String c old' ++ r)
  = (new ++ replace_fuel n (String c old') new r)%string.
Proof.
  change (String c old' ++ r)%string with (String c (old' ++ r)).
  cbn [replace_fuel].
  change (String c (old' ++ r)) with (String c old' ++ r)%string.
  rewrite prefix_app_self, substring_after. reflexivity.
Qed.

Lemma update_status_one_button (c : bool) (m : option string) (u : ui) :
  xorb (connect_enabled (update_connection_status c m u))
       (disconnect_enabled (update_connection_status c m u)) = true.
Proof. destruct c; reflexivity. Qed.

Lemma update_status_handles (c : bool) (m : option string) (u : ui) :
  rpc (update_connection_status c m u) = rpc u /\
  next_pc (update_connection_status c m u) = next_pc u /\
  closes (update_connection_status c m u) = closes u.
Proof. destruct c; repeat split. Qed.

Lemma connect_async_shape ld post sr url u :
  exists c m, connect_async ld post sr url u = update_connection_status c m (connecting u).
Proof.
  unfold connect_async.
  destruct (ld (next_pc u)) as [msg|[sdp typ]]; [eauto|].
  destruct (post _ _) as [msg|rep]; [eauto|].
  destruct (reply_status rep =? 200); [|eauto].
  destruct (reply_json rep) as [msg|obj]; [eauto|].
  destruct (Signaling.lookup "sdp" obj); [|eauto].
  destruct (Signaling.lookup "type" obj); [|eauto].
  destruct (sr _ _ _); eauto.
Qed.

Lemma connect_handles ld post sr url u :
  url <> EmptyString ->
  rpc (connect_to_publisher ld post sr url u) = Some (next_pc u) /\
  next_pc (connect_to_publisher ld post sr url u) = S (next_pc u) /\
  closes (connect_to_publisher ld post sr url u) = closes u.
Proof.
  intros Hu. unfold connect_to_publisher.
  destruct (String.eqb_spec url EmptyString) as [E|_]; [contradiction|].
  destruct (connect_async_shape ld post sr url u) as (c & m & ->).
  destruct (update_status_handles c m (connecting u)) as (-> & -> & ->).
  repeat split.
Qed.

(** What a receiver keeps about its connections: it never schedules
    [close()] twice for one connection, and only for connections it
    created; the current one, if any, is open. *)
Definition handles_ok (u : ui) : Prop :=
  NoDup (closes u) /\ Forall (fun h => (h < next_pc u)%nat) (closes u) /\
  match rpc u with
  | Some h => (h < next_pc u)%nat /\ ~ In h (closes u)
  | None => True
  end.

Lemma handles_ok_step ld post sr (op : ui_op) (u : ui) :
  handles_ok u -> handles_ok (run_ui ld post sr [op] u).
Proof.
  intros (Hn & Hf & Hr). destruct op as [url|]; cbn [run_ui].
  - destruct (String.eqb_spec url EmptyString) as [E|E].
    + subst url. unfold connect_to_publisher. cbn [String.eqb]. exact (conj Hn (conj Hf Hr)).
    + unfold handles_ok. destruct (connect_handles ld post sr url u E) as (-> & -> & ->).
      split; [exact Hn|]. split.
      * eapply Forall_impl; [|exact Hf]. intros h Hh. cbn beta in Hh. lia.
      * split; [lia|]. intros Hin. rewrite Forall_forall in Hf. specialize (Hf _ Hin). lia.
  - unfold disconnect, handles_ok. cbn [rpc closes next_pc].
    destruct (rpc u) as [h|] eqn:E; [|auto].
    destruct Hr as [Hlt Hnin]. split; [|split; [|exact I]].
    + apply NoDup_app; [exact Hn| constructor; [intros []| constructor] |].
      intros x Hx [<-|[]]. contradiction.
    + apply Forall_app. split; [exact Hf|]. constructor; [exact Hlt| constructor].
Qed.

(** The leak of connection [0]: not current and never closed. *)
Definition leaked0 (u : ui) : Prop :=
  rpc u <> Some 0%nat /\ ~ In 0%nat (closes u) /\ (1 <= next_pc u)%nat.

Lemma leaked0_step ld post sr (op : ui_op) (u : ui) :
  leaked0 u -> leaked0 (run_ui ld post sr [op] u).
Proof.
  intros (Hr & Hc & Hn). destruct op as [url|]; cbn [run_ui].
  - destruct (String.eqb_spec url EmptyString) as [E|E].
    + subst url. unfold connect_to_publisher. cbn [String.eqb]. exact (conj Hr (conj Hc Hn)).
    + unfold leaked0. destruct (connect_handles ld post sr url u E) as (-> & -> & ->).
      split; [intros H; injection H; lia|]. split; [exact Hc| lia].
  - unfold disconnect, leaked0. cbn [rpc closes next_pc].
    split; [discriminate|]. split; [|exact Hn].
    destruct (rpc u) as [h|] eqn:E; [|exact Hc].
    rewrite in_app_iff. intros [H|[H|[]]]; [contradiction|]. subst h. contradiction.
Qed.

Lemma run_ui_preserves (P : ui -> Prop) ld post sr :
  (forall op u, P u -> P (run_ui ld post sr [op] u)) ->
  forall ops u, P u -> P (run_ui ld post sr ops u).
Proof.
  intros Hstep ops. induction ops as [|op ops IH]; intros u Hu; [exact Hu|].
  destruct op as [url|]; cbn [run_ui]; apply IH.
  - exact (Hstep (OpConnect url) u Hu).
  - exact (Hstep OpDisconnect u Hu).
Qed.

Lemma py_int_bounds (q : Q) (n : Z) : (0 <= q)%Q -> (q <= inject_Z n)%Q -> 0 <= py_int q <= n.
Proof.
  destruct q as [a b]. unfold py_int, Qle, inject_Z. cbn [Qnum Qden]. intros H0 H1.
  rewrite Z.quot_div_nonneg by lia. split.
  - apply Z.div_pos; lia.
  - apply Z.div_le_upper_bound; lia.
Qed.

Lemma track_loop_stops ld mode offset cw ch pre bad post u :
  frame_fails ld mode offset bad = true ->
  track_loop ld mode offset cw ch (pre ++ bad :: post) u
    = track_loop ld mode offset cw ch (pre ++ [bad]) u.
Proof.
  unfold frame_fails. intros Hb. revert u. induction pre as [|f pre IH]; intros u; cbn [app track_loop].
  - destruct (rbind bad _); [discriminate| reflexivity].
  - destruct (rbind f _); [apply IH| reflexivity].
Qed.

Lemma track_loop_playing ld mode offset cw ch frames u :
  is_playing (track_loop ld mode offset cw ch frames u)
  = is_playing u && negb (existsb (frame_fails ld mode offset) frames).
Proof.
  revert u. induction frames as [|f fs IH]; intros u; cbn [track_loop existsb].
  - rewrite andb_true_r. reflexivity.
  - unfold frame_fails at 1. destruct (rbind f _).
    + rewrite IH. unfold update_video_display.
      repeat match goal with
             | |- context [match ?x with _ => _ end] => destruct x
             | |- context [if ?x then _ else _] => destruct x
             end; reflexivity.
    + cbn. rewrite andb_false_r. reflexivity.
Qed.

Lemma fit_width_bounds (X Y ca fa q : Q) :
  (1 < X)%Q -> (1 < Y)%Q -> Y * ca == X -> (ca < fa)%Q -> fa * q == X ->
  (0 <= q)%Q /\ (q <= Y)%Q.
Proof.
  intros HX HY Hca Hlt Hq.
  assert (Hca0 : (0 < ca)%Q) by nra. assert (Hfa0 : (0 < fa)%Q) by lra.
  split; nra.
Qed.
Lemma fit_height_bounds (X Y W H ca fa : Q) :
  (1 < X)%Q -> (1 < Y)%Q -> (0 <= W)%Q -> (0 < H)%Q -> H * fa == W -> Y * ca == X ->
  (fa <= ca)%Q -> (0 <= Y * fa)%Q /\ (Y * fa <= X)%Q.
Proof.
  intros HX HY HW HH Hfa Hca Hle.
  assert (Hfa0 : (0 <= fa)%Q) by nra.
  split; nra.
Qed.

Lemma Qeq_bool_false_neq (a b : Q) : Qeq_bool a b = false -> ~ (a == b)%Q.
Proof. intros H E. apply Qeq_bool_iff in E. congruence. Qed.

(** [_connect_async] rewrites the URL scheme before appending [/offer]:
    [ws://] becomes [http://], [wss://] becomes [https://], and a URL with
    neither (an [http://] one) is used as it is. *)
Theorem offer_url_scheme (r : string) :
  occurs "ws://" r = false -> occurs "wss://" r = false ->
  offer_url ("ws://" ++ r) = ("http://" ++ r ++ "/offer")%string /\
  offer_url ("wss://" ++ r) = ("https://" ++ r ++ "/offer")%string /\
  offer_url r = (r ++ "/offer")%string.
Proof.
  intros H1 H2. unfold offer_url, py_replace. split; [|split].
  - rewrite length_append. cbn [String.length Nat.add].
    rewrite replace_fuel_hit, (replace_fuel_absent _ _ _ r H1).
    rewrite replace_fuel_absent; [reflexivity|].
    change (occurs "wss://" r = false). exact H2.
  - rewrite (replace_fuel_absent _ "ws://" "http://");
      [|change (occurs "ws://" r = false); exact H1].
    rewrite length_append. cbn [String.length Nat.add].
    rewrite replace_fuel_hit, (replace_fuel_absent _ _ _ r H2). reflexivity.
  - rewrite (replace_fuel_absent _ _ _ r H1), (replace_fuel_absent _ _ _ r H2). reflexivity.
Qed.

Lemma offer_url_scheme_witness :
  offer_url "ws://localhost:3030" = "http://localhost:3030/offer"%string.
Proof.
  destruct (offer_url_scheme "localhost:3030" eq_refl eq_refl) as [H _]. exact H.
Defined.

(** Whatever buttons are pressed from the initial window, exactly one of
    Connect and Disconnect is enabled once every press has been handled.
    Among all the states the window shows on the way, each has exactly
    one of them enabled, except the "Connecting..." state of an attempt
    started while Connect was enabled, in which both are disabled until
    the reply arrives. *)
Theorem run_ui_one_button_enabled ld post sr (ops : list ui_op) :
  xorb (connect_enabled (run_ui ld post sr ops ui_init))
       (disconnect_enabled (run_ui ld post sr ops ui_init)) = true /\
  Forall (fun u => xorb (connect_enabled u) (disconnect_enabled u) = true \/
                   (status_text u = "Connecting..."%string /\
                    connect_enabled u = false /\ disconnect_enabled u = false))
    (run_ui_states ld post sr ops ui_init).
Proof.
  assert (H0 : xorb (connect_enabled ui_init) (disconnect_enabled ui_init) = true)
    by reflexivity.
  revert H0. generalize ui_init.
  induction ops as [|[url|] ops IH]; intros u Hu; cbn [run_ui run_ui_states].
  - split; [exact Hu|]. constructor; [left; exact Hu | constructor].
  - assert (Hc : xorb (connect_enabled (connect_to_publisher ld post sr url u))
                      (disconnect_enabled (connect_to_publisher ld post sr url u)) = true).
    { unfold connect_to_publisher. destruct (String.eqb url EmptyString); [exact Hu|].
      destruct (connect_async_shape ld post sr url u) as (c & m & ->).
      apply update_status_one_button. }
    destruct (IH _ Hc) as [Hf Hs]. split; [exact Hf|].
    constructor; [left; exact Hu|].
    apply Forall_app. split; [|exact Hs].
    destruct (String.eqb url ""); constructor; [|constructor].
    unfold connecting; cbn [connect_enabled disconnect_enabled status_text].
    destruct (connect_enabled u), (disconnect_enabled u); cbn in Hu |- *;
      try discriminate; auto.
  - destruct (IH (disconnect u) eq_refl) as [Hf Hs]. split; [exact Hf|].
    constructor; [left; exact Hu | exact Hs].
Qed.

(** Whatever buttons are pressed from the initial window, [close()] is
    never scheduled twice for one connection, only for connections the
    receiver created, and never for the current one. *)
Theorem run_ui_handles_ok ld post sr (ops : list ui_op) :
  handles_ok (run_ui ld post sr ops ui_init).
Proof.
  apply run_ui_preserves; [apply handles_ok_step|].
  split; [constructor|]. split; [constructor| exact I].
Qed.

(** Connecting a second time without pressing Disconnect overwrites
    [self.pc] without closing it: the first connection is never closed,
    whatever is pressed afterwards. *)
Theorem connect_twice_leaks_first ld post sr (url1 url2 : string) (ops : list ui_op) :
  url1 <> EmptyString -> url2 <> EmptyString ->
  ~ In 0%nat (closes (run_ui ld post sr (OpConnect url1 :: OpConnect url2 :: ops) ui_init)).
Proof.
  intros H1 H2.
  assert (Hl : leaked0 (run_ui ld post sr [OpConnect url1; OpConnect url2] ui_init)).
  { cbn [run_ui]. unfold leaked0.
    destruct (connect_handles ld post sr url1 ui_init H1) as (Ha & Hb & Hc).
    destruct (connect_handles ld post sr url2 (connect_to_publisher ld post sr url1 ui_init) H2)
      as (-> & -> & ->).
    rewrite Hb, Hc. cbn. split; [discriminate|]. split; [intros []| lia]. }
  exact (proj1 (proj2 (run_ui_preserves leaked0 ld post sr (leaked0_step ld post sr) ops _ Hl))).
Qed.

Lemma connect_twice_leaks_first_witness :
  ~ In 0%nat (closes (run_ui (fun _ => inl "no codec"%string) (fun _ _ => inl "refused"%string)
                        (fun _ _ _ => None)
                        [OpConnect "ws://a"; OpConnect "ws://b"; OpDisconnect] ui_init)).
Proof. apply connect_twice_leaks_first; discriminate. Defined.

(** Disconnecting twice is the same as disconnecting once: the second call
    finds no [self.pc] and schedules no second [close()]. *)
Theorem disconnect_idempotent (u : ui) : disconnect (disconnect u) = disconnect u.
Proof. reflexivity. Qed.

(** The outcomes of a connection once the offer is posted: a status other
    than 200 reports [Failed to connect: <status>]; a 200 answer without
    [sdp] reports the [KeyError] ['sdp']; in both cases Connect is enabled
    again. An answer the engine accepts shows [Connected]. *)
Theorem connect_reply_outcomes ld post sr (url : string) (u : ui) (sdp typ : string)
    (rep : reply) :
  url <> EmptyString ->
  ld (next_pc u) = inr (sdp, typ) ->
  post (offer_url url) [("sdp", sdp); ("type", typ)]%string = inr rep ->
  let u' := connect_to_publisher ld post sr url u in
  (reply_status rep <> 200 ->
     status_text u' = ("Connection failed: Failed to connect: " ++ py_str_int (reply_status rep))%string /\
     connect_enabled u' = true /\ disconnect_enabled u' = false) /\
  (forall obj, reply_status rep = 200 -> reply_json rep = inr obj ->
     Signaling.lookup "sdp" obj = None ->
     status_text u' = "Connection failed: 'sdp'"%string /\
     connect_enabled u' = true /\ disconnect_enabled u' = false) /\
  (forall obj a_sdp a_type, reply_status rep = 200 -> reply_json rep = inr obj ->
     Signaling.lookup "sdp" obj = Some a_sdp -> Signaling.lookup "type" obj = Some a_type ->
     sr (next_pc u) a_sdp a_type = None ->
     status_text u' = "Connected"%string /\
     connect_enabled u' = false /\ disconnect_enabled u' = true).
Proof.
  intros Hu Hld Hpost u'. unfold u', connect_to_publisher.
  destruct (String.eqb_spec url EmptyString) as [E|_]; [contradiction|].
  unfold connect_async. rewrite Hld, Hpost. split; [|split].
  - intros Hs. apply Z.eqb_neq in Hs. rewrite Hs. repeat split.
  - intros obj Hs Hj Hl. rewrite Hs, Hj, Hl. repeat split.
  - intros obj a_sdp a_type Hs Hj Hl1 Hl2 Hr. rewrite Hs, Hj, Hl1, Hl2, Hr. repeat split.
Qed.

Lemma connect_reply_outcomes_witness :
  status_text (connect_to_publisher (fun _ => inr ("v=0 offer", "offer"))%string
                 (fun _ _ => inr (mkReply 404 (inl "404: Not Found"%string)))
                 (fun _ _ _ => None) "ws://localhost:3030" ui_init)
  = "Connection failed: Failed to connect: 404"%string.
Proof.
  destruct (connect_reply_outcomes (fun _ => inr ("v=0 offer", "offer"))%string
              (fun _ _ => inr (mkReply 404 (inl "404: Not Found"%string)))
              (fun _ _ _ => None) "ws://localhost:3030" ui_init "v=0 offer" "offer"
              (mkReply 404 (inl "404: Not Found"%string))) as [H _].
  - discriminate.
  - reflexivity.
  - reflexivity.
  - exact (proj1 (H ltac:(discriminate))).
Defined.

(** The receiver against the publisher's [/offer] handler: when the
    publisher cannot build its video track, or its engine rejects the
    offer, the receiver shows [Failed to connect: 500] and enables Connect
    again; when both succeed, the receiver hands the answer to its engine
    with type [answer], and shows [Connected] if the engine accepts it. *)
Theorem receiver_offer_to_publisher ld sr (video : Publisher.asset)
    (de : string -> option string) (neg : string -> string -> string + string)
    (st : Signaling.pstate) (url : string) (u : ui) (sdp typ : string) :
  url <> EmptyString -> ld (next_pc u) = inr (sdp, typ) -> de typ = None ->
  let u' := connect_to_publisher ld (publisher_post video de neg st) sr url u in
  ((exists e, Publisher.init video = Err e) \/
   (exists tw msg, Publisher.init video = Ok tw /\ neg sdp typ = inl msg) ->
     status_text u' = "Connection failed: Failed to connect: 500"%string /\
     connect_enabled u' = true) /\
  (forall tw ans, Publisher.init video = Ok tw -> neg sdp typ = inr ans ->
     status_text u' = match sr (next_pc u) ans "answer"%string with
                      | None => "Connected"%string
                      | Some msg => ("Connection failed: " ++ msg)%string
                      end).
Proof.
  intros Hu Hld Hde u'. unfold u', connect_to_publisher.
  destruct (String.eqb_spec url EmptyString) as [E|_]; [contradiction|].
  unfold connect_async. rewrite Hld. unfold publisher_post.
  unfold Signaling.offer_handler, Signaling.offer_try.
  cbn [Signaling.lookup rev app find fst snd String.eqb Ascii.eqb Bool.eqb andb].
  rewrite Hde. unfold Signaling.create_new_connection. split.
  - intros [[e He]|(tw & msg & Htw & Hn)].
    + rewrite He. split; reflexivity.
    + rewrite Htw, Hn. split; reflexivity.
  - intros tw ans Htw Hn. rewrite Htw, Hn.
    cbn. destruct (sr (next_pc u) ans "answer"%string); reflexivity.
Qed.

Lemma receiver_offer_to_publisher_witness :
  status_text (connect_to_publisher (fun _ => inr ("v=0 offer", "offer"))%string
                 (publisher_post Signaling.asset_demo_video (fun _ => None)
                    Signaling.negotiate_demo Signaling.state_demo)
                 (fun _ _ _ => None) "ws://localhost:3030" ui_init)
  = "Connected"%string.
Proof.
  destruct (receiver_offer_to_publisher (fun _ => inr ("v=0 offer", "offer"))%string
              (fun _ _ _ => None) Signaling.asset_demo_video (fun _ => None)
              Signaling.negotiate_demo Signaling.state_demo "ws://localhost:3030" ui_init
              "v=0 offer" "offer") as [_ H].
  - discriminate.
  - reflexivity.
  - reflexivity.
  - exact (H (Signaling.track_demo_video, Publisher.mkWorld None 0 0 0 []) "v=0 answer"%string
             eq_refl eq_refl).
Defined.

(** In both side-by-side modes, an offset equal to the frame's width makes
    [width - offset] zero, and the frame's processing raises
    [ZeroDivisionError]. *)
Theorem side_by_side_offset_width_zero_division resize (frame : image) :
  process_3d_frame resize "side_by_side_cross_eye" (ncols frame) frame = Err ZeroDivisionError /\
  process_3d_frame resize "side_by_side_parallel" (ncols frame) frame = Err ZeroDivisionError.
Proof.
  unfold process_3d_frame; cbn [String.eqb Ascii.eqb Bool.eqb andb].
  unfold cross_eye, parallel, new_height_of. cbv zeta. rewrite Z.sub_diag.
  split; reflexivity.
Qed.

(** After [handle_video_track], [is_playing] is false exactly when one of
    the received frames failed (in [recv] or in its processing); while all
    frames succeed the loop keeps playing. *)
Theorem handle_video_track_playing resize mode offset cw ch frames u :
  is_playing (handle_video_track resize mode offset cw ch frames u)
  = negb (existsb (frame_fails resize mode offset) frames).
Proof. unfold handle_video_track. rewrite track_loop_playing. reflexivity. Qed.

(** The first failing frame ends the loop: frames after it are never
    received or shown, and [is_playing] is false. *)
Theorem handle_video_track_stops_at_failure resize mode offset cw ch pre bad post u :
  frame_fails resize mode offset bad = true ->
  handle_video_track resize mode offset cw ch (pre ++ bad :: post) u
    = handle_video_track resize mode offset cw ch (pre ++ [bad]) u /\
  is_playing (handle_video_track resize mode offset cw ch (pre ++ [bad]) u) = false.
Proof.
  intros Hb. unfold handle_video_track. split.
  - apply track_loop_stops. exact Hb.
  - rewrite track_loop_playing, existsb_app. cbn [existsb]. rewrite Hb, orb_true_r. reflexivity.
Qed.

Lemma handle_video_track_stops_at_failure_witness :
  let u := handle_video_track ReceiverFacts.resize_nn "side_by_side_cross_eye" 8 640 480
             [Ok ReceiverFacts.frame_demo; Ok ReceiverFacts.frame_demo] ui_init in
  u = handle_video_track ReceiverFacts.resize_nn "side_by_side_cross_eye" 8 640 480
        [Ok ReceiverFacts.frame_demo] ui_init /\ is_playing u = false.
Proof.
  exact (handle_video_track_stops_at_failure ReceiverFacts.resize_nn "side_by_side_cross_eye"
           8 640 480 [] (Ok ReceiverFacts.frame_demo) [Ok ReceiverFacts.frame_demo] ui_init
           eq_refl).
Defined.

(** [_update_video_display] either leaves the window as it was (an
    exception, or a canvas not laid out yet) or draws one image: the frame
    resized to fit the canvas, keeping its aspect ratio, filling the
    canvas's width or its height, and centred. *)
Theorem update_video_display_fits resize (cw ch : Z) (frame : image) (u : ui) :
  let u' := update_video_display resize cw ch frame u in
  u' = u \/
  exists nw nh fr,
    resize frame nw nh = Ok fr /\
    canvas u' = [((cw - nw) / 2, (ch - nh) / 2, fr)] /\ current_frame u' = Some fr /\
    0 <= nw <= cw /\ 0 <= nh <= ch /\ (nw = cw \/ nh = ch).
Proof.
  intros u'. unfold u', update_video_display. cbv zeta.
  destruct ((1 <? cw) && (1 <? ch)) eqn:Hc; [|left; reflexivity].
  apply andb_true_iff in Hc as [Hcw Hch]. apply Z.ltb_lt in Hcw, Hch.
  pose proof Hcw as Hcwz. pose proof Hch as Hchz.
  assert (Hw : 0 <= ncols frame) by (unfold ncols; destruct frame; lia).
  assert (Hh : 0 <= nrows frame) by (unfold nrows; lia).
  rewrite Zlt_Qlt in Hcw, Hch. rewrite Zle_Qle in Hw, Hh.
  change (inject_Z 1) with (1 # 1)%Q in Hcw, Hch. change (inject_Z 0) with (0 # 1)%Q in Hw, Hh.
  set (X := inject_Z cw) in *. set (Y := inject_Z ch) in *.
  set (W := inject_Z (ncols frame)) in *. set (H := inject_Z (nrows frame)) in *.
  unfold py_truediv. destruct (Qeq_bool H 0) eqn:HH; [left; reflexivity|].
  apply Qeq_bool_false_neq in HH.
  assert (HH0 : (0 < H)%Q).
  { destruct (proj1 (Qle_lteq _ _) Hh) as [Hp|Hz]; [exact Hp|]. exfalso. apply HH. symmetry. exact Hz. }
  destruct (Qeq_bool Y 0) eqn:HY; [left; reflexivity|].
  apply Qeq_bool_false_neq in HY.
  assert (Hfa := Qmult_div_r W H HH). assert (Hca := Qmult_div_r X Y HY).
  set (fa := (W / H)%Q) in *. set (ca := (X / Y)%Q) in *.
  destruct (Qlt_le_dec ca fa) as [Hlt|Hle].
  - destruct (Qeq_bool fa 0) eqn:Hf; [left; reflexivity|].
    apply Qeq_bool_false_neq in Hf.
    assert (Hq := Qmult_div_r X fa Hf). set (q := (X / fa)%Q) in *.
    destruct (fit_width_bounds X Y ca fa q Hcw Hch Hca Hlt Hq) as [Hq0 Hq1].
    destruct (resize frame cw (py_int q)) as [fr|e] eqn:Hr; [|left; reflexivity].
    right. exists cw, (py_int q), fr. split; [exact Hr|]. split; [reflexivity|].
    split; [reflexivity|]. split; [lia|]. split; [|left; reflexivity].
    apply py_int_bounds; assumption.
  - destruct (resize frame (py_int (Y * fa)) ch) as [fr|e] eqn:Hr; [|left; reflexivity].
    right. exists (py_int (Y * fa)), ch, fr. split; [exact Hr|]. split; [reflexivity|].
    split; [reflexivity|]. split; [|split; [lia| right; reflexivity]].
    destruct (fit_height_bounds X Y W H ca fa Hcw Hch Hw HH0 Hfa Hca Hle) as [Hb0 Hb1].
    apply py_int_bounds; assumption.
Qed.

(** A canvas not laid out yet (one pixel or less in either direction) or a
    frame with no rows leaves the window as it was: nothing is drawn. *)
Theorem update_video_display_degenerate resize (cw ch : Z) (frame : image) (u : ui) :
  cw <= 1 \/ ch <= 1 \/ nrows frame = 0 ->
  update_video_display resize cw ch frame u = u.
Proof.
  intros Hd. unfold update_video_display. cbv zeta.
  destruct ((1 <? cw) && (1 <? ch)) eqn:Hc; [|reflexivity].
  apply andb_true_iff in Hc as [Hcw Hch]. apply Z.ltb_lt in Hcw, Hch.
  destruct Hd as [Hd|[Hd|Hd]]; [lia|lia|]. rewrite Hd. reflexivity.
Qed.

Lemma update_video_display_degenerate_witness :
  update_video_display ReceiverFacts.resize_nn 640 480 [] ui_init = ui_init.
Proof. apply update_video_display_degenerate. right. right. reflexivity. Defined.

(** The luminance OpenCV computes for [COLOR_RGB2GRAY], used by the
    anaglyph modes, stays an 8-bit value on 8-bit pixels, and is exact on
    grey pixels [(v, v, v)]. *)
Theorem gray_px_uint8 (r g b : Z) :
  0 <= r <= 255 -> 0 <= g <= 255 -> 0 <= b <= 255 ->
  0 <= gray_px (r, g, b) <= 255 /\ gray_px (r, r, r) = r.
Proof.
  intros Hr Hg Hb. unfold gray_px.
  rewrite !Z.shiftr_div_pow2 by lia. change (Z.shiftl 1 13) with 8192.
  change (2 ^ 14) with 16384. split.
  - split; [apply Z.div_pos; lia|].
    assert (Hlt : (r * 4899 + g * 9617 + b * 1868 + 8192) / 16384 < 256)
      by (apply Z.div_lt_upper_bound; lia).
    lia.
  - replace (r * 4899 + r * 9617 + r * 1868 + 8192) with (8192 + r * 16384) by ring.
    rewrite Z.div_add by lia. change (8192 / 16384) with 0. reflexivity.
Qed.

Lemma gray_px_uint8_witness : gray_px (255, 255, 255) = 255 /\ gray_px (255, 0, 0) = 76.
Proof.
  split.
  - exact (proj2 (gray_px_uint8 255 0 0 ltac:(lia) ltac:(lia) ltac:(lia))).
  - reflexivity.
Defined.

End ReceiverApp.
